(** * Taurus: the reply-thread reconstruction and the response formatter
    of [utils.js], embedded in Rocq.

    The development follows the source file:
    - [JS]: the fragment of JavaScript strings and objects the file
      relies on (UTF-16 code units, [length], [substring], [startsWith],
      [split], template literals, property lookup);
    - [RegExp]: a backtracking matcher in the style of the ECMAScript
      specification, and the three regular expressions of the file;
    - [Discord]: the attributes of messages, embeds and errors the file
      reads, and the calls it makes ([fetch], [reply], [edit]);
    - [Async]: asynchronous computations as a trace of calls and a
      completion;
    - [Utils]: the functions of [utils.js];
    - [Spec] and [Examples]: the notions the properties are stated with,
      and concrete threads and responses;
    - the properties proved about the functions. *)

From Stdlib Require Import List NArith Ascii String Bool Arith Lia.
Import ListNotations.

(* ================================================================== *)
(** ** JavaScript strings *)
(* ================================================================== *)

Module JS.

(** A JavaScript string is a sequence of UTF-16 code units; [length],
    [substring] and the regular expressions below all count code units. *)
Abbreviation jsstring := (list N).

(** An ASCII literal of the source, code unit by code unit. *)
Definition lit (s : string) : jsstring :=
  map N_of_ascii (list_ascii_of_string s).

(** The line feed written [\n] in the source. *)
Definition LF : N := 10%N.

Fixpoint eqb (a b : jsstring) : bool :=
  match a, b with
  | [], [] => true
  | x :: a', y :: b' => N.eqb x y && eqb a' b'
  | _, _ => false
  end.

(** [s.length] *)
Definition length (s : jsstring) : nat := List.length s.

(** [s.substring(0, n)] and [s.slice(0, n)] for [0 <= n]. *)
Definition substring0 (n : nat) (s : jsstring) : jsstring := firstn n s.

(** [s.startsWith(p)] *)
Fixpoint startsWith (p s : jsstring) : bool :=
  match p, s with
  | [], _ => true
  | x :: p', y :: s' => N.eqb x y && startsWith p' s'
  | _ :: _, [] => false
  end.

(** [s.split(sep)] for a separator of one code unit: the pieces between
    the occurrences of [sep], at least one piece. *)
Fixpoint split (sep : N) (s : jsstring) : list jsstring :=
  match s with
  | [] => [[]]
  | c :: s' =>
      if N.eqb c sep then [] :: split sep s'
      else match split sep s' with
           | [] => [[c]]
           | piece :: pieces => (c :: piece) :: pieces
           end
  end.

(** [a[i]]: [undefined] (here [None]) past the end. *)
Definition index {A} (l : list A) (i : nat) : option A := nth_error l i.

(** A string is truthy when it is not empty; [undefined] and [null] are
    falsy. *)
Definition truthy (s : option jsstring) : bool :=
  match s with
  | Some (_ :: _) => true
  | _ => false
  end.

(** The decimal digits of a number, most significant first: what a
    template literal writes for [${i}]. *)
Fixpoint of_uint (u : Decimal.uint) : jsstring :=
  match u with
  | Decimal.Nil => []
  | Decimal.D0 u' => 48%N :: of_uint u'
  | Decimal.D1 u' => 49%N :: of_uint u'
  | Decimal.D2 u' => 50%N :: of_uint u'
  | Decimal.D3 u' => 51%N :: of_uint u'
  | Decimal.D4 u' => 52%N :: of_uint u'
  | Decimal.D5 u' => 53%N :: of_uint u'
  | Decimal.D6 u' => 54%N :: of_uint u'
  | Decimal.D7 u' => 55%N :: of_uint u'
  | Decimal.D8 u' => 56%N :: of_uint u'
  | Decimal.D9 u' => 57%N :: of_uint u'
  end.

Definition of_nat (n : nat) : jsstring := of_uint (Nat.to_uint n).

(** An object literal read as a table: its own properties in the order
    they are written, and behind them the members every object inherits
    from [Object.prototype]. *)
Inductive Property (A : Type) : Type :=
| Own (a : A)        (* a property of the literal *)
| Inherited          (* a member of [Object.prototype]: some object *)
| Undefined.         (* no such property *)

Arguments Own {A} a.
Arguments Inherited {A}.
Arguments Undefined {A}.

Definition objectPrototype : list jsstring :=
  map lit ["constructor"; "__defineGetter__"; "__defineSetter__";
           "hasOwnProperty"; "__lookupGetter__"; "__lookupSetter__";
           "isPrototypeOf"; "propertyIsEnumerable"; "toString"; "valueOf";
           "__proto__"; "toLocaleString"]%string.

Fixpoint ownProperty {A} (o : list (jsstring * A)) (key : jsstring)
    : option A :=
  match o with
  | [] => None
  | (k, a) :: o' => if eqb k key then Some a else ownProperty o' key
  end.

(** [o[key]] *)
Definition get {A} (o : list (jsstring * A)) (key : jsstring) : Property A :=
  match ownProperty o key with
  | Some a => Own a
  | None => if existsb (eqb key) objectPrototype then Inherited else Undefined
  end.

(** [v.f] for a value read from such a table: a member of
    [Object.prototype] has none of the fields of the literal's entries. *)
Definition field {A B} (f : A -> B) (v : Property A) : option B :=
  match v with
  | Own a => Some (f a)
  | _ => None
  end.

End JS.

Abbreviation jsstring := JS.jsstring.

(* ================================================================== *)
(** ** Regular expressions *)
(* ================================================================== *)

Module RegExp.

(** The syntax the three patterns of [utils.js] use.  A group is its
    body: no pattern of the file reads a capture. *)
Inductive regex : Type :=
| Class (p : N -> bool)                       (* one code unit of a class *)
| Seq (r1 r2 : regex)                         (* r1 r2 *)
| Quant (r : regex) (min : nat) (max : option nat)   (* greedy r{min,max} *)
| WordBoundary.                               (* \b *)

Definition chr (a : ascii) : regex := Class (N.eqb (N_of_ascii a)).
Definition opt (r : regex) : regex := Quant r 0 (Some 1).
Definition star (r : regex) : regex := Quant r 0 None.
Definition plus (r : regex) : regex := Quant r 1 None.

Definition between (lo hi c : N) : bool := (N.leb lo c && N.leb c hi)%bool.
Definition one_of (s : string) (c : N) : bool :=
  existsb (N.eqb c) (JS.lit s).

(** [\d] *)
Definition digit (c : N) : bool := between 48 57 c.
(** [a-z], [A-Z] *)
Definition lower (c : N) : bool := between 97 122 c.
Definition upper (c : N) : bool := between 65 90 c.
(** The word characters of [\b]: [A-Za-z0-9_]. *)
Definition word (c : N) : bool :=
  (lower c || upper c || digit c || N.eqb c 95)%bool.
(** [\s]: the white space and line terminators of ECMAScript. *)
Definition space (c : N) : bool :=
  (between 9 13 c || N.eqb c 32 || N.eqb c 160 || N.eqb c 5760
   || between 8192 8202 c || N.eqb c 8232 || N.eqb c 8233
   || N.eqb c 8239 || N.eqb c 8287 || N.eqb c 12288
   || N.eqb c 65279)%bool.

(** A match state: the code unit before the current position, if any,
    and the input from the current position on. *)
Abbreviation State := (option N * jsstring)%type.
Abbreviation Cont := (State -> option State).
Abbreviation Matcher := (State -> Cont -> option State).

Definition IsWordChar (c : option N) : bool :=
  match c with
  | Some c => word c
  | None => false
  end.

(** The greedy [RepeatMatcher] of the ECMAScript specification.  An
    iteration that matches the empty string once [min] is reached is
    refused, so [fuel] larger than [min] plus the length of the input is
    never used up. *)
Fixpoint RepeatMatcher (m : Matcher) (min : nat) (max : option nat)
    (fuel : nat) (x : State) (c : Cont) : option State :=
  match fuel with
  | O => None
  | S fuel' =>
      match max with
      | Some O => c x
      | _ =>
          let d : Cont := fun y =>
            if ((min =? 0)%nat
                && (List.length (snd y) =? List.length (snd x))%nat)%bool
            then None
            else RepeatMatcher m (pred min) (option_map pred max) fuel' y c in
          if (min =? 0)%nat then
            match m x d with
            | Some z => Some z
            | None => c x
            end
          else m x d
      end
  end.

Fixpoint compile (r : regex) : Matcher :=
  match r with
  | Class p => fun x c =>
      match snd x with
      | ch :: rest => if p ch then c (Some ch, rest) else None
      | [] => None
      end
  | Seq r1 r2 => fun x c => compile r1 x (fun y => compile r2 y c)
  | Quant r' min max => fun x c =>
      RepeatMatcher (compile r') min max (S (min + List.length (snd x))) x c
  | WordBoundary => fun x c =>
      if xorb (IsWordChar (fst x)) (IsWordChar (hd_error (snd x)))
      then c x else None
  end.

(** One attempt at the current position: the state after the match. *)
Definition match_at (r : regex) (x : State) : option State :=
  compile r x (fun y => Some y).

(** The result of a successful search: the text skipped before the
    match, the match ([match[0]]), and the state after it (the position
    a global pattern keeps in [lastIndex]). *)
Record Match : Type := { before : jsstring; matched : jsstring; after : State }.

(** The leftmost match at or after the current position: every position
    is tried in turn, the end of the input included. *)
Fixpoint exec (r : regex) (prev : option N) (s : jsstring) : option Match :=
  match match_at r (prev, s) with
  | Some y =>
      Some {| before := [];
              matched := firstn (List.length s - List.length (snd y)) s;
              after := y |}
  | None =>
      match s with
      | [] => None
      | ch :: s' =>
          match exec r (Some ch) s' with
          | Some m =>
              Some {| before := ch :: before m;
                      matched := matched m;
                      after := after m |}
          | None => None
          end
      end
  end.

(** [r.test(s)] for a pattern without the [g] flag. *)
Definition test (r : regex) (s : jsstring) : bool :=
  match exec r None s with
  | Some _ => true
  | None => false
  end.

(** [s.replace(r, by)] for a pattern without the [g] flag and a
    replacement without [$]: the leftmost match is replaced. *)
Definition replace (r : regex) (by_ : jsstring) (s : jsstring) : jsstring :=
  match exec r None s with
  | Some m => before m ++ by_ ++ snd (after m)
  | None => s
  end.

Declare Scope regex_scope.
Delimit Scope regex_scope with regex.
Infix "+++" := Seq (at level 61, right associativity) : regex_scope.

(** [/<@&?\d+>/g], the mention-like tokens of [handleResponse]. *)
Definition mentionRegex : regex :=
  (chr "<" +++ chr "@" +++ opt (chr "&") +++ plus (Class digit) +++ chr ">")%regex.

(** [/<@\d+>\s*/], the user mention [getThreadMessages] removes. *)
Definition userMentionRegex : regex :=
  (chr "<" +++ chr "@" +++ plus (Class digit) +++ chr ">" +++ star (Class space))%regex.

(** The two classes of [linkRegex]:
    [[-a-zA-Z0-9@:%._\+~#=]] and [[-a-zA-Z0-9()@:%_\+.~#?&//=]]. *)
Definition hostChar (c : N) : bool :=
  (lower c || upper c || digit c || one_of "-@:%._+~#=" c)%bool.
Definition pathChar (c : N) : bool :=
  (lower c || upper c || digit c || one_of "-()@:%_+.~#?&/=" c)%bool.
Definition tldChar (c : N) : bool :=
  (lower c || upper c || digit c || one_of "()" c)%bool.

(** The pattern [fetchThreadMessages] builds, piece by piece:
    [https?:\/\/], [(www\.)?], [[-a-zA-Z0-9@:%._\+~#=]{1,256}], [\.],
    [[a-zA-Z0-9()]{1,6}], [\b], and a last group that repeats the class
    [[-a-zA-Z0-9()@:%_\+.~#?&//=]] any number of times. *)
Definition linkRegex : regex :=
  (chr "h" +++ chr "t" +++ chr "t" +++ chr "p" +++ opt (chr "s")
   +++ chr ":" +++ chr "/" +++ chr "/"
   +++ opt (chr "w" +++ chr "w" +++ chr "w" +++ chr ".")
   +++ Quant (Class hostChar) 1 (Some 256)
   +++ chr "."
   +++ Quant (Class tldChar) 1 (Some 6)
   +++ WordBoundary
   +++ star (Class pathChar))%regex.

End RegExp.


(* ================================================================== *)
(** ** The messaging platform, as [utils.js] sees it *)
(* ================================================================== *)

Module Discord.

Module User.
Record t : Type := { id : jsstring; tag : jsstring }.
End User.

Module Client.
Record t : Type := { user : User.t }.
End Client.

(** An embed of a received message: only its footer text is read. *)
Module EmbedFooter.
Record t : Type := { text : option jsstring }.
End EmbedFooter.

Module Embed.
Record t : Type := { footer : option EmbedFooter.t }.
End Embed.

Module MessageReference.
Record t : Type := { messageId : jsstring }.
End MessageReference.

Module Message.
Record t : Type := {
  author : User.t;
  content : jsstring;
  reference : option MessageReference.t;
  embeds : list Embed.t;
  client : Client.t
}.
End Message.

Module Interaction.
Record t : Type := { user : User.t }.
End Interaction.

(** What can be thrown: the platform's [DiscordAPIError] with its code,
    the [ReferenceError] of an unbound identifier, the [TypeError] of a
    property read on [null] or [undefined], and any other failure. *)
Inductive Error : Type :=
| DiscordAPIError (code : N)
| ReferenceError (identifier : string)
| TypeError
| OtherError.

Inductive Color : Type := Red | Blue | Orange.

(** An embed under construction.  The setters of the library validate
    what they are given: a title and a description are strings, a colour
    is the name of a colour, and [undefined] is refused with an error of
    the validator, one of the failures that are not the platform's.
    [setTitle], [setDescription] and [setColor] are the setters on a
    value that is there; [validated] is a setter on a value that may be
    [undefined], as [handleGeminiError] calls them. *)
Module EmbedBuilder.
Record t : Type := {
  title : option jsstring;
  description : option jsstring;
  color : option Color;
  footer : option jsstring
}.
Definition new : t :=
  {| title := None; description := None; color := None; footer := None |}.
Definition setTitle (v : jsstring) (e : t) : t :=
  {| title := Some v; description := description e; color := color e;
     footer := footer e |}.
Definition setDescription (v : jsstring) (e : t) : t :=
  {| title := title e; description := Some v; color := color e;
     footer := footer e |}.
Definition setColor (v : Color) (e : t) : t :=
  {| title := title e; description := description e; color := Some v;
     footer := footer e |}.
Definition setFooter (text : jsstring) (e : t) : t :=
  {| title := title e; description := description e; color := color e;
     footer := Some text |}.
Definition ValidationError : Error := OtherError.
Definition validated {A} (set : A -> t -> t) (v : option A) (e : t)
    : Error + t :=
  match v with
  | Some a => inr (set a e)
  | None => inl ValidationError
  end.
End EmbedBuilder.

(** The code of "Unknown Message". *)
Definition UnknownMessage : N := 10008%N.

(** [message.channel.messages]: the fetch of a message by its id. *)
Module Channel.
Record t : Type := { fetch : jsstring -> Error + Message.t }.
End Channel.

(** [chat.sendMessage(q)], then [result.response.text()]. *)
Module Chat.
Record t : Type := { sendMessage : jsstring -> Error + jsstring }.
End Chat.

(** The calls that leave the process, in the order they are made. *)
Inductive Event : Type :=
| MessagesFetch (messageId : jsstring)
| MessageReply (embeds : list EmbedBuilder.t)
| InteractionReply (embeds : list EmbedBuilder.t)
| LoadingMsgEdit (content : option jsstring) (embeds : list EmbedBuilder.t)
| SetTimeout (ms : N)
| ChatSendMessage (userQuestion : jsstring).

End Discord.

Import Discord.

(* ================================================================== *)
(** ** Asynchronous computations: a trace of calls and a completion *)
(* ================================================================== *)

Module Async.

Inductive Completion (A : Type) : Type :=
| Normal (a : A)          (* the promise is fulfilled with [a] *)
| Throw (e : Error)       (* the promise is rejected with [e] *)
| Pending.                (* the bound on the loop was reached first *)

Arguments Normal {A} a.
Arguments Throw {A} e.
Arguments Pending {A}.

Definition t (A : Type) : Type := list Event * Completion A.

Definition ret {A} (a : A) : t A := ([], Normal a).
Definition throw {A} (e : Error) : t A := ([], Throw e).
Definition pending {A} : t A := ([], Pending).
Definition emit (ev : Event) : t unit := ([ev], Normal tt).

Definition bind {A B} (m : t A) (f : A -> t B) : t B :=
  match m with
  | (tr, Normal a) => let (tr', c) := f a in (tr ++ tr', c)
  | (tr, Throw e) => (tr, Throw e)
  | (tr, Pending) => (tr, Pending)
  end.

(** [try { m } catch (error) { h error }] *)
Definition tryCatch {A} (m : t A) (h : Error -> t A) : t A :=
  match m with
  | (tr, Throw e) => let (tr', c) := h e in (tr ++ tr', c)
  | _ => m
  end.

(** A call whose result the platform decides. *)
Definition call {A} (ev : Event) (r : Error + A) : t A :=
  match r with
  | inr a => ([ev], Normal a)
  | inl e => ([ev], Throw e)
  end.

(** A step that makes no call and may throw. *)
Definition settle {A} (r : Error + A) : t A :=
  match r with
  | inr a => ret a
  | inl e => throw e
  end.

Definition trace {A} (m : t A) : list Event := fst m.
Definition completion {A} (m : t A) : Completion A := snd m.

End Async.

Import Async.

Declare Scope async_scope.
Delimit Scope async_scope with async.
Notation "x <- m ;; k" := (Async.bind m (fun x => k))
  (at level 62, m at next level, right associativity) : async_scope.
Notation "m ;;; k" := (Async.bind m (fun _ => k))
  (at level 62, right associativity) : async_scope.
Local Open Scope async_scope.

(* ================================================================== *)
(** ** utils.js *)
(* ================================================================== *)

Module Utils.

(** *** Conversation turns *)

Inductive Role : Type := user | model.

Module Part.
Record t : Type := { text : option jsstring }.
End Part.

(** [{ role: r, parts: [{ text: s }] }] *)
Module Turn.
Record t : Type := { role : Role; parts : list Part.t }.
Definition make (r : Role) (s : option jsstring) : t :=
  {| role := r; parts := [ {| Part.text := s |} ] |}.
End Turn.

(** [a.unshift(x)] *)
Definition unshift {A} (x : A) (a : list A) : list A := x :: a.

(** The values of [messageDeleted]; [undefined] is [None]. *)
Inductive DeletionMarker : Type := threadDeleted | slashCommand.

(** *** handleGeminiError *)

Module ErrorResponse.
Record t : Type := {
  title : jsstring;
  description : jsstring;
  color : Color;
  quotaError : bool
}.
End ErrorResponse.

Definition errorTitle : jsstring :=
  [9888%N] ++ [65039%N] ++ JS.lit " An Error Occurred".

Definition safetyKey : jsstring :=
  JS.lit "[GoogleGenerativeAI Error]: Candidate was blocked due to SAFETY".
Definition locationKey : jsstring :=
  JS.lit "[GoogleGenerativeAI Error]: Error fetching from https://generativelanguage.googleapis.com/v1beta/models/gemini-1.5-pro-latest:generateContent: [400 Bad Request] User location is not supported for the API use.".
Definition quotaKey : jsstring :=
  JS.lit "[GoogleGenerativeAI Error]: Error fetching from https://generativelanguage.googleapis.com/v1beta/models/gemini-1.5-pro-latest:generateContent: [429 Too Many Requests] Resource has been exhausted (e.g. check quota).".
Definition emptyMessageKey : jsstring :=
  JS.lit "Cannot send an empty message".
Definition internalKey : jsstring :=
  JS.lit "[GoogleGenerativeAI Error]: Error fetching from https://generativelanguage.googleapis.com/v1beta/models/gemini-1.5-pro-latest:generateContent: [500 Internal Server Error] An internal error has occurred. Please retry or report in https://developers.generativeai.google/guide/troubleshooting".
Definition defaultKey : jsstring := JS.lit "default".

Definition errorResponses : list (jsstring * ErrorResponse.t) :=
  [ (safetyKey,
     {| ErrorResponse.title := errorTitle;
        ErrorResponse.description :=
          JS.lit "> *The response was blocked due to **SAFETY**.* " ++ [JS.LF]
          ++ JS.lit "- *Result based on your input. Safety Blocking may not be 100% correct.*";
        ErrorResponse.color := Red;
        ErrorResponse.quotaError := false |});
    (locationKey,
     {| ErrorResponse.title := errorTitle;
        ErrorResponse.description :=
          JS.lit "> *The user location is not supported for Gemini API use. Please contact the Developers.*";
        ErrorResponse.color := Red;
        ErrorResponse.quotaError := false |});
    (quotaKey,
     {| ErrorResponse.title := errorTitle;
        ErrorResponse.description :=
          JS.lit "There are a lot of requests at the moment. Please try again later, or in a few minutes. " ++ [JS.LF]
          ++ [9656%N] ++ JS.lit " *If this issue persists after a few minutes, please contact the Developers.* " ++ [JS.LF]
          ++ JS.lit " - *We are aware of these issues and apologize for the inconvenience.* " ++ [JS.LF]
          ++ JS.lit "> - Token Limit for this minute has been reached.";
        ErrorResponse.color := Red;
        ErrorResponse.quotaError := true |});
    (emptyMessageKey,
     {| ErrorResponse.title := errorTitle;
        ErrorResponse.description :=
          JS.lit "An error occurred while processing your request. Please try again later, or in a few minutes. " ++ [JS.LF]
          ++ [9656%N] ++ JS.lit " *If this issue persists, please contact the Developers.* " ++ [JS.LF]
          ++ JS.lit "> - Generated response may be too long. *(Fix this by specifying for the generated response to be smaller, e.g. 10 Lines)*" ++ [JS.LF]
          ++ JS.lit "> - Token Limit for this minute may have been reached.";
        ErrorResponse.color := Red;
        ErrorResponse.quotaError := false |});
    (internalKey,
     {| ErrorResponse.title := errorTitle;
        ErrorResponse.description :=
          JS.lit "An error occurred while processing your request. This error originated from Google's side, not ours.  " ++ [JS.LF]
          ++ [9656%N] ++ JS.lit " *If this issue persists, please contact the Developers.* " ++ [JS.LF]
          ++ JS.lit "> - Please retry and make another request.";
        ErrorResponse.color := Red;
        ErrorResponse.quotaError := false |});
    (defaultKey,
     {| ErrorResponse.title := errorTitle;
        ErrorResponse.description :=
          JS.lit "An unknown error occurred while processing your request. Please try again later, or in a few minutes. " ++ [JS.LF]
          ++ [9656%N] ++ JS.lit " *If this issue persists, please contact the Developers.*" ++ [JS.LF]
          ++ JS.lit "> - Token Limit for this minute may have been reached.";
        ErrorResponse.color := Red;
        ErrorResponse.quotaError := false |}) ].

(** The error handed to [handleGeminiError]: only its message is read. *)
Module GeminiError.
Record t : Type := { message : jsstring }.
End GeminiError.

(** [errorResponses[err.message] || errorResponses.default]: every
    object is truthy, [undefined] is not. *)
Definition lookupErrorResponse (err : GeminiError.t)
    : JS.Property ErrorResponse.t :=
  match JS.get errorResponses (GeminiError.message err) with
  | JS.Undefined => JS.get errorResponses defaultKey
  | found => found
  end.

(** [errorResponse.quotaError] as a condition. *)
Definition isQuotaError (errorResponse : JS.Property ErrorResponse.t) : bool :=
  match JS.field ErrorResponse.quotaError errorResponse with
  | Some b => b
  | None => false
  end.

(** [`<clock> Retrying request in (${i})`] *)
Definition retryFooter (i : nat) : jsstring :=
  [9201%N] ++ [65039%N] ++ JS.lit " Retrying request in (" ++ JS.of_nat i
  ++ JS.lit ")".

(** [for (let i = n; i > 0; i--) { setFooter; edit; wait one second }] *)
Fixpoint countdown (i : nat) (embed : EmbedBuilder.t) : Async.t unit :=
  match i with
  | O => Async.ret tt
  | S i' =>
      let embed := EmbedBuilder.setFooter (retryFooter i) embed in
      Async.emit (LoadingMsgEdit None [embed]) ;;;
      Async.emit (SetTimeout 1000) ;;;
      countdown i' embed
  end.

Definition quota_error : jsstring := JS.lit "quota_error".

(** The notice is set up by [setTitle], [setDescription] and [setColor]
    on the fields of what the lookup found, in this order and before any
    edit: a field that is [undefined] makes its setter throw. *)
Definition handleGeminiError (err : GeminiError.t) : Async.t (option jsstring) :=
  let errorResponse := lookupErrorResponse err in
  embed <-
    Async.settle
      (EmbedBuilder.validated EmbedBuilder.setTitle
         (JS.field ErrorResponse.title errorResponse) EmbedBuilder.new) ;;
  embed <-
    Async.settle
      (EmbedBuilder.validated EmbedBuilder.setDescription
         (JS.field ErrorResponse.description errorResponse) embed) ;;
  embed <-
    Async.settle
      (EmbedBuilder.validated EmbedBuilder.setColor
         (JS.field ErrorResponse.color errorResponse) embed) ;;
  if isQuotaError errorResponse then
    countdown 10 embed ;;;
    Async.ret (Some quota_error)
  else
    Async.emit (LoadingMsgEdit None [embed]) ;;;
    Async.ret None.

(** *** handleResponse and createInfoEmbed *)

(** The notice appended to a response that was cut. *)
Definition truncationNotice : jsstring :=
  JS.lit "... " ++ [JS.LF; JS.LF]
  ++ JS.lit "*Response was cut short due to Discord's character limit of 2000*".

(** Lines 96 to 98: the text [handleResponse] goes on with. *)
Definition limitResponseText (text : jsstring) : jsstring :=
  if (2000 <? JS.length text)%nat
  then JS.substring0 1936 text ++ truncationNotice
  else text.

(** [`<@${id}>`] *)
Definition mentionOf (id : jsstring) : jsstring :=
  JS.lit "<@" ++ id ++ JS.lit ">".

(** [message?.author?.id || interaction.user.id] *)
Definition requesterId (message : option Message.t)
    (interaction : option Interaction.t) : Async.t jsstring :=
  let id := option_map (fun m => User.id (Message.author m)) message in
  if JS.truthy id then
    match id with
    | Some id => Async.ret id
    | None => Async.throw TypeError
    end
  else
    match interaction with
    | Some i => Async.ret (User.id (Interaction.user i))
    | None => Async.throw TypeError
    end.

Definition pingError : EmbedBuilder.t :=
  EmbedBuilder.setColor Red
    (EmbedBuilder.setDescription
       (JS.lit "> *The generated message contains a mention of a Role or different User to the one that sent the original message/command.*")
       (EmbedBuilder.setTitle
          ([9888%N] ++ [65039%N] ++ JS.lit " Response Cannot Be Sent")
          EmbedBuilder.new)).

(** [while ((match = regex.exec(responseText)) !== null) { ... }]: the
    state [lastIndex] is the position the pattern resumes from.  The
    result tells whether a match differed from the requester's mention.
    Every match has at least four code units, so the loop ends within
    [fuel] iterations when [fuel] exceeds the length of the text. *)
Fixpoint scanMentions (fuel : nat) (lastIndex : RegExp.State)
    (message : option Message.t) (interaction : option Interaction.t)
    : Async.t bool :=
  match fuel with
  | O => Async.pending
  | S fuel' =>
      match RegExp.exec RegExp.mentionRegex (fst lastIndex) (snd lastIndex) with
      | None => Async.ret false
      | Some m =>
          id <- requesterId message interaction ;;
          if negb (JS.eqb (RegExp.matched m) (mentionOf id))
          then Async.ret true
          else scanMentions fuel' (RegExp.after m) message interaction
      end
  end.

Definition deletedThread : EmbedBuilder.t :=
  EmbedBuilder.setColor Orange
    (EmbedBuilder.setFooter
       (JS.lit "A message has been deleted/is not accessible in the reply thread, Taurus does not know the past reply thread history.")
       EmbedBuilder.new).

Definition deletedSlashCommand : EmbedBuilder.t :=
  EmbedBuilder.setColor Orange
    (EmbedBuilder.setFooter
       (JS.lit "Reply thread history not accessible, utilize history by mentioning me to chat instead.")
       EmbedBuilder.new).

Definition createInfoEmbed (isContextMenuCommand : bool)
    (message : option Message.t) (messageDeleted : option DeletionMarker)
    : Async.t (list EmbedBuilder.t) :=
  infoEmbed <-
    (if isContextMenuCommand then
       match message with
       | None => Async.throw TypeError
       | Some message =>
           let footerText :=
             JS.lit "Response to message by "
             ++ User.tag (Message.author message)
             ++ [JS.LF; JS.LF] ++ Message.content message in
           let truncatedFooterText :=
             if (2030 <? JS.length footerText)%nat
             then JS.substring0 2027 footerText ++ JS.lit "..."
             else footerText in
           Async.ret
             [EmbedBuilder.setColor Blue
                (EmbedBuilder.setFooter truncatedFooterText EmbedBuilder.new)]
       end
     else Async.ret []) ;;
  Async.ret
    match messageDeleted with
    | Some threadDeleted => infoEmbed ++ [deletedThread]
    | Some slashCommand => infoEmbed ++ [deletedSlashCommand]
    | None => infoEmbed
    end.

Definition handleResponse (chat : Chat.t) (userQuestion : jsstring)
    (interaction : option Interaction.t) (message : option Message.t)
    (messageDeleted : option DeletionMarker) (isContextMenuCommand : bool)
    : Async.t unit :=
  text <- Async.call (ChatSendMessage userQuestion)
            (Chat.sendMessage chat userQuestion) ;;
  let responseText := limitResponseText text in
  mismatch <- scanMentions (S (JS.length responseText)) (None, responseText)
                message interaction ;;
  if mismatch : bool then
    Async.emit (LoadingMsgEdit None [pingError])
  else
    infoEmbed <- createInfoEmbed isContextMenuCommand message messageDeleted ;;
    Async.emit (LoadingMsgEdit (Some responseText) infoEmbed).

(** *** checkGeminiApiKey *)

Definition invalidApiEmbed : EmbedBuilder.t :=
  EmbedBuilder.setColor Red
    (EmbedBuilder.setDescription
       (JS.lit "> **The API Key for Gemini is invalid or not provided.**")
       (EmbedBuilder.setTitle
          ([9888%N] ++ [65039%N] ++ JS.lit " Invalid API Key")
          EmbedBuilder.new)).

(** What a reply resolves to: the message that was sent, an object. *)
Inductive Sent : Type := sent.

(** [!Gemini_API_KEY || Gemini_API_KEY.length < 4] *)
Definition keyRejected (Gemini_API_KEY : option jsstring) : bool :=
  match Gemini_API_KEY with
  | None => true
  | Some key => (negb (JS.truthy (Some key)) || (JS.length key <? 4)%nat)%bool
  end.

Definition checkGeminiApiKey (Gemini_API_KEY : option jsstring)
    (interaction : option Interaction.t) (message : option Message.t)
    : Async.t (option Sent) :=
  if keyRejected Gemini_API_KEY then
    match interaction with
    | Some _ =>
        Async.emit (InteractionReply [invalidApiEmbed]) ;;;
        Async.ret (Some sent)
    | None =>
        match message with
        | Some _ =>
            Async.emit (MessageReply [invalidApiEmbed]) ;;;
            Async.ret (Some sent)
        | None => Async.throw TypeError
        end
    end
  else Async.ret None.

(** *** getThreadMessages *)

(** The condition of the [while] loop: the cursor has a reference and
    is not a message of the bot with an embed and no link. *)
Definition walkOn (message : Message.t) (linkRegex : RegExp.regex)
    (currentMessage : Message.t) : option MessageReference.t :=
  match Message.reference currentMessage with
  | Some reference =>
      if negb (JS.eqb (User.id (Message.author currentMessage))
                 (User.id (Client.user (Message.client message)))
               && (0 <? List.length (Message.embeds currentMessage))%nat
               && negb (RegExp.test linkRegex (Message.content currentMessage)))
      then Some reference
      else None
  | None => None
  end.

Definition responsePrefix : jsstring := JS.lit "Response to message by".

(** The body of the loop after the fetch (lines 257 to 273): the turns
    the fetched message puts in front of [threadMessages]. *)
Definition recordTurns (message : Message.t) (currentMessage : Message.t)
    (threadMessages : list Turn.t) : list Turn.t :=
  let sender :=
    if JS.eqb (User.id (Message.author currentMessage))
         (User.id (Client.user (Message.client message)))
    then model else user in
  let content := Message.content currentMessage in
  match sender with
  | user =>
      let content := RegExp.replace RegExp.userMentionRegex [] content in
      unshift (Turn.make sender (Some content)) threadMessages
  | model =>
      match Message.embeds currentMessage with
      | embed0 :: _ =>
          let footerText :=
            match Embed.footer embed0 with
            | Some footer => EmbedFooter.text footer
            | None => None
            end in
          match footerText with
          | Some footerText' =>
              if JS.startsWith responsePrefix footerText' then
                let userMessage := JS.index (JS.split JS.LF footerText') 2 in
                let threadMessages :=
                  unshift (Turn.make sender (Some content)) threadMessages in
                unshift (Turn.make user userMessage) threadMessages
              else unshift (Turn.make sender (Some content)) threadMessages
          | None => unshift (Turn.make sender (Some content)) threadMessages
          end
      | [] => unshift (Turn.make sender (Some content)) threadMessages
      end
  end.

(** The loop, from the state [(threadMessages, currentMessage)].  The
    reply chain is as long as the platform makes it: [fuel] bounds the
    number of fetches, and [Pending] is the answer when it is reached. *)
Fixpoint walk (fuel : nat) (channel : Channel.t) (message : Message.t)
    (linkRegex : RegExp.regex) (threadMessages : list Turn.t)
    (currentMessage : Message.t) : Async.t (list Turn.t) :=
  match walkOn message linkRegex currentMessage with
  | Some reference =>
      match fuel with
      | O => Async.pending
      | S fuel' =>
          currentMessage' <-
            Async.call (MessagesFetch (MessageReference.messageId reference))
              (Channel.fetch channel (MessageReference.messageId reference)) ;;
          walk fuel' channel message linkRegex
            (recordTurns message currentMessage' threadMessages)
            currentMessage'
      end
  | None => Async.ret threadMessages
  end.

Definition getThreadMessages (fuel : nat) (channel : Channel.t)
    (message : Message.t) (linkRegex : RegExp.regex) : Async.t (list Turn.t) :=
  walk fuel channel message linkRegex [] message.

(** *** isInvalidOriginalMessage and fetchThreadMessages *)

(** What a free identifier of a function of the file resolves to.  The
    only free identifier that is not declared at the top of the file is
    the [message] of [isInvalidOriginalMessage]. *)
Module Scope.
Record t : Type := { message : option Message.t }.
End Scope.

(** The scope of [utils.js] as it is written: the file declares its
    imports and its functions, and no [message]. *)
Definition fileScope : Scope.t := {| Scope.message := None |}.

Definition isInvalidOriginalMessage (scope : Scope.t)
    (originalMessage : Message.t) (linkRegex : RegExp.regex)
    (startStrings : list jsstring) : Async.t bool :=
  let authorId := User.id (Message.author originalMessage) in
  match Scope.message scope with
  | None => Async.throw (ReferenceError "message")
  | Some message =>
      Async.ret
        (negb (JS.eqb authorId (User.id (Client.user (Message.client message))))
         || match Message.embeds originalMessage with
            | embed0 :: _ =>
                match Embed.footer embed0 with
                | None => true
                | Some footer =>
                    match EmbedFooter.text footer with
                    | Some (c :: text) =>
                        negb (existsb
                                (fun str => JS.startsWith str (c :: text))
                                startStrings)
                    | _ => true
                    end
                end
                && negb (RegExp.test linkRegex (Message.content originalMessage))
            | [] => false
            end)%bool
  end.

Module ThreadMessages.
Record t : Type := {
  userQuestion : option jsstring;
  threadMessages : option (list Turn.t);
  messageDeleted : option DeletionMarker
}.
End ThreadMessages.

Definition startStrings : list jsstring :=
  [ JS.lit "Response to message by";
    JS.lit "A message has been deleted";
    JS.lit "Reply thread history" ].

(** How the [try] block ends when it does not throw: with the [return]
    of line 200, or at its closing brace with [threadMessages] assigned
    or not. *)
Inductive TryBlock : Type :=
| Returned (result : ThreadMessages.t)
| Completed (threadMessages : list Turn.t).

(** The [try] block, lines 195 to 205.  Beside how it ends it yields
    [messageDeleted], which it leaves as it found it. *)
Definition tryBlock (scope : Scope.t) (fuel : nat) (channel : Channel.t)
    (message : Message.t) (threadMessages : list Turn.t)
    (messageDeleted : option DeletionMarker)
    : Async.t (TryBlock * option DeletionMarker) :=
  reference <-
    match Message.reference message with
    | Some reference => Async.ret reference
    | None => Async.throw TypeError
    end ;;
  originalMessage <-
    Async.call (MessagesFetch (MessageReference.messageId reference))
      (Channel.fetch channel (MessageReference.messageId reference)) ;;
  let linkRegex := RegExp.linkRegex in
  invalid <-
    isInvalidOriginalMessage scope originalMessage linkRegex startStrings ;;
  if invalid : bool then
    Async.ret
      (Returned {| ThreadMessages.userQuestion := None;
                   ThreadMessages.threadMessages := None;
                   ThreadMessages.messageDeleted := Some threadDeleted |},
       messageDeleted)
  else if JS.eqb (User.id (Message.author originalMessage))
            (User.id (Client.user (Message.client message)))
  then
    threadMessages <- getThreadMessages fuel channel message linkRegex ;;
    Async.ret (Completed threadMessages, messageDeleted)
  else Async.ret (Completed threadMessages, messageDeleted).

(** The [catch] block, lines 206 to 213. *)
Definition catchBlock (error : Error)
    : Async.t (TryBlock * option DeletionMarker) :=
  match error with
  | DiscordAPIError code =>
      if N.eqb code UnknownMessage
      then Async.ret (Completed [], Some threadDeleted)
      else Async.throw error
  | _ => Async.throw error
  end.

Definition fetchThreadMessages (scope : Scope.t) (fuel : nat)
    (channel : Channel.t) (Gemini_API_KEY : option jsstring)
    (message : Message.t) : Async.t (option ThreadMessages.t) :=
  rejected <- checkGeminiApiKey Gemini_API_KEY None (Some message) ;;
  match rejected with
  | Some _ => Async.ret None
  | None =>
      let threadMessages : list Turn.t := [] in
      let userQuestion := Message.content message in
      let messageDeleted : option DeletionMarker := None in
      outcome <-
        Async.tryCatch
          (tryBlock scope fuel channel message threadMessages messageDeleted)
          catchBlock ;;
      match outcome with
      | (Returned result, _) => Async.ret (Some result)
      | (Completed threadMessages, messageDeleted) =>
          Async.ret
            (Some {| ThreadMessages.userQuestion := Some userQuestion;
                     ThreadMessages.threadMessages := Some threadMessages;
                     ThreadMessages.messageDeleted := messageDeleted |})
      end
  end.

End Utils.

Import Utils.

(* ================================================================== *)
(** ** Notions the properties are stated with *)
(* ================================================================== *)

Module Spec.

(** The longest prefix of [s] in the class [p]: its length, and the
    state a matcher is in once it has read it. *)
Fixpoint run (p : N -> bool) (s : jsstring) : nat :=
  match s with
  | c :: s' => if p c then S (run p s') else 0
  | [] => 0
  end.

Fixpoint skip (p : N -> bool) (prev : option N) (s : jsstring)
    : RegExp.State :=
  match s with
  | c :: s' => if p c then skip p (Some c) s' else (prev, s)
  | [] => (prev, [])
  end.

(** A matcher only moves forward: the state its continuation is called
    on is a suffix of the input it was given. *)
Definition Consumes (m : RegExp.Matcher) : Prop :=
  forall x c z, m x c = Some z ->
    exists y t, c y = Some z /\ snd x = t ++ snd y.

(** A mention-like token: [<@] or [<@&], digits, [>]. *)
Definition MentionToken (tok : jsstring) : Prop :=
  exists amp ds,
    (amp = [] \/ amp = [38%N]) /\ ds <> [] /\
    forallb RegExp.digit ds = true /\
    tok = [60%N; 64%N] ++ amp ++ ds ++ [62%N].

(** [text] has [tok] somewhere in it. *)
Definition Contains (text tok : jsstring) : Prop :=
  exists pre post, text = pre ++ tok ++ post.

(** [s] begins with a user mention [<@digits>]. *)
Definition StartsWithUserMention (s : jsstring) : Prop :=
  exists ds tail,
    ds <> [] /\ forallb RegExp.digit ds = true /\
    s = [60%N; 64%N] ++ ds ++ [62%N] ++ tail.

(** [s] does not begin with white space. *)
Definition NoLeadingSpace (s : jsstring) : Prop :=
  match s with
  | c :: _ => RegExp.space c = false
  | [] => True
  end.

(** The reply chain the loop of [getThreadMessages] reads from a
    cursor: the messages it fetches, in the order it fetches them, each
    the one the message before refers to, up to the message the loop
    condition stops at. *)
Inductive Chain (channel : Channel.t) (message : Message.t)
    (linkRegex : RegExp.regex) : Message.t -> list Message.t -> Prop :=
| Chain_end (currentMessage : Message.t) :
    walkOn message linkRegex currentMessage = None ->
    Chain channel message linkRegex currentMessage []
| Chain_step (currentMessage : Message.t) (reference : MessageReference.t)
    (fetched : Message.t) (older : list Message.t) :
    walkOn message linkRegex currentMessage = Some reference ->
    Channel.fetch channel (MessageReference.messageId reference) = inr fetched ->
    Chain channel message linkRegex fetched older ->
    Chain channel message linkRegex currentMessage (fetched :: older).

(** The turns one fetched message stands for. *)
Definition turnsOf (message : Message.t) (fetched : Message.t) : list Turn.t :=
  recordTurns message fetched [].

(** A message of the bot whose first embed has a footer that starts
    with "Response to message by": the answer to a context-menu request,
    which quotes the message it answers. *)
Definition quotesUser (message : Message.t) (fetched : Message.t) : bool :=
  (JS.eqb (User.id (Message.author fetched))
     (User.id (Client.user (Message.client message)))
   && match Message.embeds fetched with
      | embed0 :: _ =>
          match Embed.footer embed0 with
          | Some footer =>
              match EmbedFooter.text footer with
              | Some footerText => JS.startsWith responsePrefix footerText
              | None => false
              end
          | None => false
          end
      | [] => false
      end)%bool.

(** The specification's words for the content of a user turn: a user
    mention and the white space after it are taken off the front of the
    content, which is otherwise unchanged. *)
Definition stripLeadingUserMention (content : jsstring) : jsstring :=
  match RegExp.match_at RegExp.userMentionRegex (None, content) with
  | Some y => snd y
  | None => content
  end.

(** A message that carries an embed, at any position, whose footer
    starts with "Response to message by". *)
Definition carriesQuote (fetched : Message.t) : bool :=
  existsb
    (fun embed =>
       match Embed.footer embed with
       | Some footer =>
           match EmbedFooter.text footer with
           | Some footerText =>
               JS.startsWith (JS.lit "Response to message by") footerText
           | None => false
           end
       | None => false
       end)
    (Message.embeds fetched).

(** The notice [handleGeminiError] builds from an entry of the table. *)
Definition notice (entry : ErrorResponse.t) : EmbedBuilder.t :=
  {| EmbedBuilder.title := Some (ErrorResponse.title entry);
     EmbedBuilder.description := Some (ErrorResponse.description entry);
     EmbedBuilder.color := Some (ErrorResponse.color entry);
     EmbedBuilder.footer := None |}.

(** One step of the countdown: the edit that shows [i], and the wait. *)
Definition countdownStep (embed : EmbedBuilder.t) (i : nat) : list Event :=
  [ LoadingMsgEdit None [EmbedBuilder.setFooter (retryFooter i) embed];
    SetTimeout 1000 ].

End Spec.

Import Spec.

(* ================================================================== *)
(** ** Concrete messages, channels and responses *)
(* ================================================================== *)

Module Examples.

Definition botUser : User.t :=
  {| User.id := JS.lit "999"; User.tag := JS.lit "Taurus#0001" |}.
Definition alice : User.t :=
  {| User.id := JS.lit "456"; User.tag := JS.lit "alice" |}.
Definition taurus : Client.t := {| Client.user := botUser |}.

Definition messageOf (author : User.t) (content : jsstring)
    (reference : option jsstring) (embeds : list Embed.t) : Message.t :=
  {| Message.author := author;
     Message.content := content;
     Message.reference :=
       option_map (fun id => {| MessageReference.messageId := id |}) reference;
     Message.embeds := embeds;
     Message.client := taurus |}.

Definition footerEmbed (text : jsstring) : Embed.t :=
  {| Embed.footer := Some {| EmbedFooter.text := Some text |} |}.

(** A chat whose answer is [text], whatever the question. *)
Definition chatAnswering (text : jsstring) : Chat.t :=
  {| Chat.sendMessage := fun _ => inr text |}.

(** The question of [alice], a message without a reference. *)
Definition question : Message.t :=
  messageOf alice (JS.lit "what is a monad?") None [].

(** A short response that mentions the user 123, and a response of
    2006 code units that mentions the same user at its very end. *)
Definition foreignMention : jsstring := JS.lit "<@123>".
Definition pingingText : jsstring := JS.lit "ask " ++ foreignMention.
Definition latePingingText : jsstring := repeat 97%N 2000 ++ foreignMention.

(** A response of 2500 code units, all of them [a]. *)
Definition longText : jsstring := repeat 97%N 2500.

(** A reply of [alice] to the message [id]. *)
Definition replyTo (id : string) : Message.t :=
  messageOf alice (JS.lit "and then?") (Some (JS.lit id)) [].

(** A channel given by the messages it holds: any other id is answered
    by "Unknown Message". *)
Fixpoint channelOf (messages : list (string * Message.t)) (id : jsstring)
    : Error + Message.t :=
  match messages with
  | [] => inl (DiscordAPIError UnknownMessage)
  | (id', m) :: messages' =>
      if JS.eqb (JS.lit id') id then inr m else channelOf messages' id
  end.

(** A message of [alice] with a mention in the middle of it. *)
Definition aside : Message.t :=
  messageOf alice (JS.lit "hi <@1> there") None [].

(** Two answers of the bot to context-menu requests, both with a link
    in their content, the newer one a reply to the older one. *)
Definition quotedAnswer2 : Message.t :=
  messageOf botUser (JS.lit "It is documented at https://example.org/b")
    None
    [footerEmbed (JS.lit "Response to message by bob" ++ [JS.LF; JS.LF]
                  ++ JS.lit "where is it documented?")].
Definition quotedAnswer1 : Message.t :=
  messageOf botUser (JS.lit "See https://example.org/a")
    (Some (JS.lit "2"))
    [footerEmbed (JS.lit "Response to message by carol" ++ [JS.LF; JS.LF]
                  ++ JS.lit "any pointer?")].
(** An answer of the bot whose second embed quotes a user, the first
    embed having no footer. *)
Definition lateQuote : Message.t :=
  messageOf botUser (JS.lit "Here it is.") None
    [ {| Embed.footer := None |};
      footerEmbed (JS.lit "Response to message by dave" ++ [JS.LF; JS.LF]
                   ++ JS.lit "where is it?") ].
Definition quotingChannel : Channel.t :=
  {| Channel.fetch := channelOf [("1"%string, quotedAnswer1); ("2"%string, quotedAnswer2)] |}.

(** A thread of three: a question that mentions the bot, the plain
    answer of the bot, and the reply of [alice] that is being handled. *)
Definition firstQuestion : Message.t :=
  messageOf alice (JS.lit "<@999> what is a monad?") None [].
Definition firstAnswer : Message.t :=
  messageOf botUser (JS.lit "A monoid in the category of endofunctors.")
    (Some (JS.lit "10")) [].
Definition threadChannel : Channel.t :=
  {| Channel.fetch := channelOf [("10"%string, firstQuestion); ("11"%string, firstAnswer)] |}.

(** The thread of three once the question has been deleted. *)
Definition brokenChannel : Channel.t :=
  {| Channel.fetch := channelOf [("11"%string, firstAnswer)] |}.

(** The scope a caller would give [isInvalidOriginalMessage] if the
    message being handled were passed to it. *)
Definition scopeOf (message : Message.t) : Scope.t :=
  {| Scope.message := Some message |}.

(** A message of another user, without embed, footer or link, and the
    channel that holds it. *)
Definition bob : User.t :=
  {| User.id := JS.lit "123"; User.tag := JS.lit "bob" |}.
Definition strangerMessage : Message.t :=
  messageOf bob (JS.lit "lunch?") None [].
Definition strangerChannel : Channel.t :=
  {| Channel.fetch := channelOf [("5"%string, strangerMessage)] |}.

(** A channel without any message: every fetch is answered by
    "Unknown Message". *)
Definition emptyChannel : Channel.t :=
  {| Channel.fetch := fun _ => inl (DiscordAPIError UnknownMessage) |}.

(** The errors of the model: the quota error, an error no entry is
    written for, and an error named like a member every object has. *)
Definition quotaExceeded : GeminiError.t :=
  {| GeminiError.message := quotaKey |}.
Definition unknownError : GeminiError.t :=
  {| GeminiError.message := JS.lit "fetch failed" |}.
Definition constructorError : GeminiError.t :=
  {| GeminiError.message := JS.lit "constructor" |}.

End Examples.

(* ================================================================== *)
(** ** The start-up file: the names of the registered functions *)
(* ================================================================== *)

Module Bot.

(** [s.endsWith(p)] *)
Definition endsWith (p s : jsstring) : bool :=
  JS.startsWith (rev p) (rev s).

(** [s.replace(pattern, by)] for a pattern that is a string: the first
    occurrence of the pattern is replaced. *)
Fixpoint replaceString (pattern by_ s : jsstring) : jsstring :=
  if JS.startsWith pattern s then by_ ++ skipn (List.length pattern) s
  else
    match s with
    | [] => []
    | c :: s' => c :: replaceString pattern by_ s'
    end.

(** The loop of the [ready] handler over the entries of [./functions]:
    for every entry that ends with [.js], the name the function of that
    file is stored under in [client.functions], with the file it was
    loaded from, in the order they are stored. *)
Definition functionNames (functionFiles : list jsstring)
    : list (jsstring * jsstring) :=
  map (fun functionFile =>
         (replaceString (JS.lit ".js") [] functionFile, functionFile))
      (filter (endsWith (JS.lit ".js")) functionFiles).

End Bot.

(* ================================================================== *)
(** ** Further notions and further cases *)
(* ================================================================== *)

Module Notions.

(** An edit of the loading message. *)
Definition isEdit (ev : Event) : bool :=
  match ev with
  | LoadingMsgEdit _ _ => true
  | _ => false
  end.

(** A footer one of the three recognized prefixes begins. *)
Definition recognized (footerText : jsstring) : bool :=
  existsb (fun str => JS.startsWith str footerText) startStrings.

(** The entry the table has under [default]. *)
Definition defaultResponse : ErrorResponse.t :=
  {| ErrorResponse.title :=
       [9888%N] ++ [65039%N] ++ JS.lit " An Error Occurred";
     ErrorResponse.description :=
       JS.lit "An unknown error occurred while processing your request. Please try again later, or in a few minutes. " ++ [JS.LF]
       ++ [9656%N] ++ JS.lit " *If this issue persists, please contact the Developers.*" ++ [JS.LF]
       ++ JS.lit "> - Token Limit for this minute may have been reached.";
     ErrorResponse.color := Red;
     ErrorResponse.quotaError := false |}.

(** The footer [createInfoEmbed] writes for a context-menu request on
    [message]: who wrote the message and what it says, cut to 2030 code
    units. *)
Definition contextFooter (message : Message.t) : jsstring :=
  let footerText :=
    JS.lit "Response to message by "
    ++ User.tag (Message.author message)
    ++ [JS.LF; JS.LF] ++ Message.content message in
  if (2030 <? JS.length footerText)%nat
  then JS.substring0 2027 footerText ++ JS.lit "..."
  else footerText.

(** The embed a message is received with when it was sent with a footer
    only. *)
Definition receivedFooter (footerText : jsstring) : Embed.t :=
  {| Embed.footer := Some {| EmbedFooter.text := Some footerText |} |}.

End Notions.

Import Notions.

Module Cases.

(** A response that mentions the requester 456 and nobody else. *)
Definition politeText : jsstring := JS.lit "<@456> a monad is a monoid".

(** A chat that fails. *)
Definition failingChat (e : Error) : Chat.t :=
  {| Chat.sendMessage := fun _ => inl e |}.

(** A channel in which the bot may not read the history: every fetch
    is answered by "Missing Access". *)
Definition MissingAccess : N := 50001%N.
Definition closedChannel : Channel.t :=
  {| Channel.fetch := fun _ => inl (DiscordAPIError MissingAccess) |}.

(** An answer of the bot with the notice of a deleted thread, itself a
    reply to a question that is still there. *)
Definition annotatedAnswer : Message.t :=
  Examples.messageOf Examples.botUser (JS.lit "It depends.")
    (Some (JS.lit "10"))
    [receivedFooter
       (JS.lit "A message has been deleted/is not accessible in the reply thread, Taurus does not know the past reply thread history.")].
Definition annotatedChannel : Channel.t :=
  {| Channel.fetch :=
       Examples.channelOf [("10"%string, Examples.firstQuestion);
                           ("12"%string, annotatedAnswer)] |}.

(** The entries of a directory of functions: two functions, a file of
    settings that is no function, and a function whose name has a [.js]
    before its extension. *)
Definition functionFiles : list jsstring :=
  [ JS.lit "status.js"; JS.lit "README.md"; JS.lit "config.json.js" ].

(** A message of two lines, and the answer of the bot to a context-menu
    request on it, as it is received. *)
Definition twoLines : Message.t :=
  Examples.messageOf Examples.bob
    (JS.lit "what is a functor?" ++ [JS.LF] ++ JS.lit "and a monad?") None [].
Definition answerToTwoLines : Message.t :=
  Examples.messageOf Examples.botUser (JS.lit "A functor maps.") None
    [receivedFooter (contextFooter twoLines)].

End Cases.

(* ================================================================== *)
(** ** Properties *)
(* ================================================================== *)

(** *** Strings *)

Lemma eqb_eq (a b : jsstring) : JS.eqb a b = true <-> a = b.
Proof.
  revert b; induction a as [|x a IH]; intros [|y b]; simpl;
    try (split; congruence).
  rewrite andb_true_iff, N.eqb_eq, IH. split.
  - intros [-> ->]; reflexivity.
  - intros H; inversion H; auto.
Qed.

Lemma eqb_refl (a : jsstring) : JS.eqb a a = true.
Proof. apply eqb_eq; reflexivity. Qed.

Lemma eqb_neq (a b : jsstring) : JS.eqb a b = false <-> a <> b.
Proof.
  rewrite <- eqb_eq. destruct (JS.eqb a b); split; congruence.
Qed.

(** *** The matcher *)

Section ClassRuns.

Variable p : N -> bool.

Lemma run_app (ds s : jsstring) :
  forallb p ds = true -> run p (ds ++ s) = (List.length ds + run p s)%nat.
Proof.
  induction ds as [|d ds IH]; simpl; intros H; [reflexivity|].
  apply andb_true_iff in H as [-> H]. rewrite IH; auto.
Qed.

Lemma skip_app (ds s : jsstring) (q : option N) :
  forallb p ds = true -> exists q', skip p q (ds ++ s) = skip p q' s.
Proof.
  revert q; induction ds as [|d ds IH]; simpl; intros q H; [now exists q|].
  apply andb_true_iff in H as [-> H]. apply IH; assumption.
Qed.

Lemma skip_stop (s : jsstring) (q : option N) :
  run p s = 0%nat -> skip p q s = (q, s).
Proof.
  destruct s as [|c s]; simpl; [reflexivity|].
  destruct (p c); [discriminate | reflexivity].
Qed.

(** What [skip] leaves behind: the run it read, and a rest that does
    not begin in the class. *)
Lemma skip_inv (s : jsstring) (q : option N) :
  exists ds, forallb p ds = true /\ List.length ds = run p s /\
             s = ds ++ snd (skip p q s) /\ run p (snd (skip p q s)) = 0%nat.
Proof.
  revert q; induction s as [|c s IH]; intros q; simpl.
  - exists []; auto.
  - destruct (p c) eqn:E.
    + destruct (IH (Some c)) as (ds & Hds & Hlen & Heq & Hrun).
      exists (c :: ds); simpl. rewrite E, Hds, Hlen. repeat split; auto.
      f_equal; exact Heq.
    + exists []; simpl. rewrite E. auto.
Qed.

(** A greedy repetition of a class, in front of a continuation that
    refuses to start on a code unit of the class: nothing is gained by
    giving a code unit back, the whole run is read. *)
Lemma RepeatMatcher_class_refuse (c : RegExp.Cont) :
  (forall q ch t, p ch = true -> c (q, ch :: t) = None) ->
  forall fuel min s q,
    (List.length s < fuel)%nat ->
    RegExp.RepeatMatcher (RegExp.compile (RegExp.Class p)) min None fuel (q, s) c
    = if (min <=? run p s)%nat then c (skip p q s) else None.
Proof.
  intros Hc; induction fuel as [|fuel IH]; intros min s q Hlt; [lia|].
  cbn [RegExp.RepeatMatcher RegExp.compile snd option_map].
  destruct s as [|ch s]; cbn [run skip].
  - destruct min; reflexivity.
  - destruct (p ch) eqn:E.
    + assert (Hne : (List.length s =? List.length (ch :: s))%nat = false)
        by (apply Nat.eqb_neq; simpl; lia).
      rewrite Hne, andb_false_r.
      rewrite IH by (simpl in Hlt; lia).
      destruct min as [|min]; cbn [Nat.eqb pred Nat.leb].
      * destruct (c (skip p (Some ch) s)) eqn:Ek; [reflexivity|].
        apply Hc; exact E.
      * reflexivity.
    + destruct min; reflexivity.
Qed.

(** The same repetition in front of a continuation that accepts the
    state after the whole run. *)
Lemma RepeatMatcher_class_accept (c : RegExp.Cont) :
  forall fuel min s q z,
    (List.length s < fuel)%nat -> (min <= run p s)%nat ->
    c (skip p q s) = Some z ->
    RegExp.RepeatMatcher (RegExp.compile (RegExp.Class p)) min None fuel (q, s) c
    = Some z.
Proof.
  induction fuel as [|fuel IH]; intros min s q z Hlt Hmin Hz; [lia|].
  cbn [RegExp.RepeatMatcher RegExp.compile snd option_map].
  destruct s as [|ch s]; cbn [run skip] in *.
  - destruct min; [exact Hz | lia].
  - destruct (p ch) eqn:E.
    + assert (Hne : (List.length s =? List.length (ch :: s))%nat = false)
        by (apply Nat.eqb_neq; simpl; lia).
      rewrite Hne, andb_false_r.
      destruct min as [|min]; cbn [Nat.eqb pred].
      * erewrite IH; [reflexivity | simpl in Hlt; lia | lia | exact Hz].
      * apply IH; auto; simpl in Hlt; lia.
    + destruct min; [exact Hz | lia].
Qed.

End ClassRuns.

Lemma RepeatMatcher_consumes (m : RegExp.Matcher) :
  Consumes m ->
  forall fuel min max, Consumes (RegExp.RepeatMatcher m min max fuel).
Proof.
  intros Hm; induction fuel as [|fuel IH]; intros min max x c z H;
    [discriminate|].
  cbn [RegExp.RepeatMatcher] in H.
  assert (Hstop : c x = Some z -> exists y t, c y = Some z /\ snd x = t ++ snd y)
    by (intros Hc; exists x, []; auto).
  assert (Hgo : forall d, (forall y, d y = Some z ->
              RegExp.RepeatMatcher m (pred min) (option_map pred max) fuel y c
              = Some z) ->
            m x d = Some z ->
            exists y t, c y = Some z /\ snd x = t ++ snd y).
  { intros d Hd Hmx. apply Hm in Hmx as (y & t & Hy & Ht).
    apply Hd, IH in Hy as (y' & t' & Hy' & Ht').
    exists y', (t ++ t'). rewrite <- app_assoc, <- Ht'. auto. }
  assert (Hd : forall y,
             (if ((min =? 0)%nat
                  && (List.length (snd y) =? List.length (snd x))%nat)%bool
              then None
              else RegExp.RepeatMatcher m (pred min) (option_map pred max)
                     fuel y c) = Some z ->
             RegExp.RepeatMatcher m (pred min) (option_map pred max) fuel y c
             = Some z).
  { intros y Hy.
    destruct ((min =? 0)%nat
              && (List.length (snd y) =? List.length (snd x))%nat)%bool;
      [discriminate | exact Hy]. }
  destruct max as [[|k]|]; [auto | |].
  - destruct (min =? 0)%nat.
    + match type of H with
      | match ?e with _ => _ end = _ => destruct e eqn:E
      end; [|auto].
      inversion H; subst. eapply Hgo; [|exact E]. exact Hd.
    + eapply Hgo; [|exact H]. exact Hd.
  - destruct (min =? 0)%nat.
    + match type of H with
      | match ?e with _ => _ end = _ => destruct e eqn:E
      end; [|auto].
      inversion H; subst. eapply Hgo; [|exact E]. exact Hd.
    + eapply Hgo; [|exact H]. exact Hd.
Qed.

Lemma compile_consumes (r : RegExp.regex) : Consumes (RegExp.compile r).
Proof.
  induction r as [p | r1 IH1 r2 IH2 | r IH min max | ]; intros x c z H;
    cbn [RegExp.compile] in H.
  - destruct x as [q [|ch s]]; cbn [snd] in *; [discriminate|].
    destruct (p ch); [|discriminate].
    exists (Some ch, s), [ch]; auto.
  - apply IH1 in H as (y1 & t1 & H & Ht1).
    apply IH2 in H as (y2 & t2 & H & Ht2).
    exists y2, (t1 ++ t2). rewrite <- app_assoc, <- Ht2; auto.
  - eapply RepeatMatcher_consumes; eauto.
  - destruct (xorb _ _); [|discriminate]. exists x, []; auto.
Qed.

Lemma match_at_consumes (r : RegExp.regex) (x y : RegExp.State) :
  RegExp.match_at r x = Some y -> exists t, snd x = t ++ snd y.
Proof.
  intros H. apply compile_consumes in H as (y' & t & Hy & Ht).
  inversion Hy; subst. eauto.
Qed.

(** *** The search *)

Lemma exec_unfold (r : RegExp.regex) (q : option N) (s : jsstring) :
  RegExp.exec r q s =
  match RegExp.match_at r (q, s) with
  | Some y =>
      Some {| RegExp.before := [];
              RegExp.matched := firstn (List.length s - List.length (snd y)) s;
              RegExp.after := y |}
  | None =>
      match s with
      | [] => None
      | ch :: s' =>
          match RegExp.exec r (Some ch) s' with
          | Some m =>
              Some {| RegExp.before := ch :: RegExp.before m;
                      RegExp.matched := RegExp.matched m;
                      RegExp.after := RegExp.after m |}
          | None => None
          end
      end
  end.
Proof. destruct s; reflexivity. Qed.

Lemma firstn_consumed (s t u : jsstring) :
  s = t ++ u -> firstn (List.length s - List.length u) s = t.
Proof.
  intros ->. rewrite length_app, Nat.add_sub.
  rewrite firstn_app, Nat.sub_diag, firstn_all. simpl. apply app_nil_r.
Qed.

(** A match that [exec] returns: the text is cut in three, the pattern
    matches where the match begins, and at no position before. *)
Lemma exec_inv (r : RegExp.regex) :
  forall s q m,
    RegExp.exec r q s = Some m ->
    s = RegExp.before m ++ RegExp.matched m ++ snd (RegExp.after m)
    /\ (exists q', RegExp.match_at r
                     (q', RegExp.matched m ++ snd (RegExp.after m))
                   = Some (RegExp.after m))
    /\ (forall p1 p2, RegExp.before m = p1 ++ p2 -> p2 <> [] ->
          exists q', RegExp.match_at r
                       (q', p2 ++ RegExp.matched m ++ snd (RegExp.after m))
                     = None).
Proof.
  induction s as [|ch s IH]; intros q m H; rewrite exec_unfold in H.
  - destruct (RegExp.match_at r (q, [])) as [y|] eqn:E; [|discriminate H].
    inversion H; subst; clear H; cbn [RegExp.before RegExp.matched RegExp.after].
    destruct (match_at_consumes _ _ _ E) as (t & Ht); cbn [snd] in Ht.
    symmetry in Ht; apply app_eq_nil in Ht as [-> Hy]. rewrite Hy. simpl.
    repeat split.
    + exists q. exact E.
    + intros p1 p2 Hp Hne. symmetry in Hp; apply app_eq_nil in Hp as [_ ->].
      congruence.
  - destruct (RegExp.match_at r (q, ch :: s)) as [y|] eqn:E.
    + injection H as <-; cbn [RegExp.before RegExp.matched RegExp.after].
      destruct (match_at_consumes _ _ _ E) as (t & Ht); cbn [snd] in Ht.
      change (match List.length (snd y) with
              | O => S (List.length s)
              | S l => (List.length s - l)%nat
              end)
        with (List.length (ch :: s) - List.length (snd y))%nat.
      rewrite (firstn_consumed _ _ _ Ht), <- Ht. repeat split.
      * exists q. exact E.
      * intros p1 p2 Hp Hne. symmetry in Hp; apply app_eq_nil in Hp as [_ ->].
        congruence.
    + destruct (RegExp.exec r (Some ch) s) as [m'|] eqn:E'; [|discriminate H].
      inversion H; subst; clear H;
        cbn [RegExp.before RegExp.matched RegExp.after].
      destruct (IH _ _ E') as (Hs & Hm & Hbefore).
      repeat split.
      * simpl. f_equal. exact Hs.
      * exact Hm.
      * intros [|c1 p1] p2 Hp Hne; simpl in Hp.
        -- subst p2. exists q. simpl. rewrite <- Hs. exact E.
        -- inversion Hp; subst. eapply Hbefore; eauto.
Qed.

(** [exec] finds a match no later than a position the pattern matches at. *)
Lemma exec_finds (r : RegExp.regex) (s2 : jsstring) :
  (forall q', RegExp.match_at r (q', s2) <> None) ->
  forall s1 q, exists m l,
    RegExp.exec r q (s1 ++ s2) = Some m /\ s1 = RegExp.before m ++ l.
Proof.
  intros Hat; induction s1 as [|ch s1 IH]; intros q; rewrite exec_unfold.
  - simpl. destruct (RegExp.match_at r (q, s2)) as [y|] eqn:E.
    + eexists _, []; split; [reflexivity | reflexivity].
    + exfalso; eapply Hat; eauto.
  - destruct (RegExp.match_at r (q, (ch :: s1) ++ s2)) as [y|] eqn:E.
    + eexists _, (ch :: s1); split; reflexivity.
    + simpl. destruct (IH (Some ch)) as (m & l & -> & Hl).
      eexists _, l; split; [reflexivity|]. simpl. f_equal. exact Hl.
Qed.

(** [exec] finds nothing in a text the pattern matches nowhere in. *)
Lemma exec_none (r : RegExp.regex) :
  forall s q,
    (forall p1 p2 q', s = p1 ++ p2 -> RegExp.match_at r (q', p2) = None) ->
    RegExp.exec r q s = None.
Proof.
  induction s as [|ch s IH]; intros q H; rewrite exec_unfold.
  - rewrite (H [] [] q eq_refl). reflexivity.
  - rewrite (H [] (ch :: s) q eq_refl).
    rewrite IH; [reflexivity|].
    intros p1 p2 q' ->. apply (H (ch :: p1) p2 q'). reflexivity.
Qed.

(** *** The two mention patterns *)

Lemma compile_seq (r1 r2 : RegExp.regex) x c :
  RegExp.compile (RegExp.Seq r1 r2) x c
  = RegExp.compile r1 x (fun y => RegExp.compile r2 y c).
Proof. reflexivity. Qed.

Lemma compile_class (p : N -> bool) q s c :
  RegExp.compile (RegExp.Class p) (q, s) c
  = match s with
    | ch :: rest => if p ch then c (Some ch, rest) else None
    | [] => None
    end.
Proof. reflexivity. Qed.

Lemma compile_quant (r : RegExp.regex) min max x c :
  RegExp.compile (RegExp.Quant r min max) x c
  = RegExp.RepeatMatcher (RegExp.compile r) min max
      (S (min + List.length (snd x))) x c.
Proof. reflexivity. Qed.

(** An optional code unit of a class: taken when what follows then
    matches, left when not. *)
Lemma compile_opt_class (p : N -> bool) q s c :
  RegExp.compile (RegExp.opt (RegExp.Class p)) (q, s) c
  = match s with
    | ch :: rest =>
        if p ch then
          match c (Some ch, rest) with
          | Some z => Some z
          | None => c (q, s)
          end
        else c (q, s)
    | [] => c (q, s)
    end.
Proof.
  unfold RegExp.opt. rewrite compile_quant.
  destruct s as [|ch rest]; [reflexivity|].
  cbn [snd List.length Nat.add RegExp.RepeatMatcher Nat.eqb andb pred option_map].
  rewrite compile_class. destruct (p ch); [|reflexivity].
  cbn [snd].
  replace (List.length rest =? S (List.length rest))%nat with false
    by (symmetry; apply Nat.eqb_neq; lia).
  reflexivity.
Qed.

Lemma digit_range (ch : N) :
  RegExp.digit ch = true <-> (48 <= ch <= 57)%N.
Proof.
  unfold RegExp.digit, RegExp.between.
  rewrite andb_true_iff, !N.leb_le. tauto.
Qed.

Lemma digit_not (ch c : N) :
  RegExp.digit ch = true -> (c < 48 \/ 57 < c)%N -> N.eqb c ch = false.
Proof.
  intros H Hc. apply digit_range in H. apply N.eqb_neq. lia.
Qed.

(** [\d+>]: the digits are read to the last one, and [>] must follow. *)
Lemma digits_gt_hit (k : RegExp.Cont) q ds rest :
  ds <> [] -> forallb RegExp.digit ds = true ->
  RegExp.compile (RegExp.plus (RegExp.Class RegExp.digit))
    (q, ds ++ 62%N :: rest)
    (fun y => RegExp.compile (RegExp.chr ">") y k)
  = k (Some 62%N, rest).
Proof.
  intros Hne Hds. unfold RegExp.plus. rewrite compile_quant.
  rewrite RepeatMatcher_class_refuse.
  - rewrite run_app by assumption.
    destruct (skip_app RegExp.digit ds (62%N :: rest) q Hds) as (q' & ->).
    destruct ds as [|d ds]; [congruence|]. reflexivity.
  - intros q' ch t Hch. unfold RegExp.chr. rewrite compile_class.
    change (N_of_ascii ">") with 62%N.
    rewrite (digit_not ch 62 Hch) by lia. reflexivity.
  - cbn [snd]. lia.
Qed.

Lemma digits_gt_inv (k : RegExp.Cont) q s z :
  RegExp.compile (RegExp.plus (RegExp.Class RegExp.digit)) (q, s)
    (fun y => RegExp.compile (RegExp.chr ">") y k) = Some z ->
  exists ds rest,
    ds <> [] /\ forallb RegExp.digit ds = true /\
    s = ds ++ 62%N :: rest /\ k (Some 62%N, rest) = Some z.
Proof.
  unfold RegExp.plus. rewrite compile_quant.
  rewrite RepeatMatcher_class_refuse.
  - destruct (skip_inv RegExp.digit s q) as (ds & Hds & Hlen & Hs & _).
    destruct (1 <=? run RegExp.digit s)%nat eqn:E; [|discriminate].
    apply Nat.leb_le in E.
    destruct (skip RegExp.digit q s) as [q' s'].
    unfold RegExp.chr. rewrite compile_class. cbn [snd] in Hs.
    destruct s' as [|ch rest]; [discriminate|].
    change (N_of_ascii ">") with 62%N.
    destruct (N.eqb_spec 62 ch) as [<-|]; [|discriminate].
    intros Hk. exists ds, rest. repeat split; auto.
    intros ->. simpl in Hlen. lia.
  - intros q' ch t Hch. unfold RegExp.chr. rewrite compile_class.
    change (N_of_ascii ">") with 62%N.
    rewrite (digit_not ch 62 Hch) by lia. reflexivity.
  - cbn [snd]. lia.
Qed.

(** Where a mention-like token begins, [mentionRegex] matches it. *)
Lemma mention_hit q amp ds rest :
  (amp = [] \/ amp = [38%N]) -> ds <> [] ->
  forallb RegExp.digit ds = true ->
  RegExp.match_at RegExp.mentionRegex
    (q, [60%N; 64%N] ++ amp ++ ds ++ [62%N] ++ rest)
  = Some (Some 62%N, rest).
Proof.
  intros Hamp Hne Hds. unfold RegExp.match_at, RegExp.mentionRegex.
  rewrite compile_seq. unfold RegExp.chr at 1. rewrite compile_class.
  cbn [app]. change (N.eqb (N_of_ascii "<") 60) with true. cbv iota.
  rewrite compile_seq. unfold RegExp.chr at 1. rewrite compile_class.
  change (N.eqb (N_of_ascii "@") 64) with true. cbv iota.
  rewrite compile_seq. unfold RegExp.chr at 1. rewrite compile_opt_class.
  change (N_of_ascii "&") with 38%N.
  destruct Hamp as [-> | ->]; cbn [app].
  - destruct ds as [|d ds]; [congruence|]. cbn [app].
    assert (Hd : RegExp.digit d = true)
      by (simpl in Hds; apply andb_true_iff in Hds; tauto).
    rewrite (digit_not d 38 Hd) by lia.
    rewrite compile_seq.
    apply (digits_gt_hit (fun y => Some y) (Some 64%N) (d :: ds) rest);
      [congruence | assumption].
  - change (N.eqb 38 38) with true. cbv iota.
    rewrite compile_seq.
    rewrite (digits_gt_hit (fun y => Some y) (Some 38%N) ds rest Hne Hds).
    reflexivity.
Qed.

(** What [mentionRegex] matches is a mention-like token. *)
Lemma mention_inv q s y :
  RegExp.match_at RegExp.mentionRegex (q, s) = Some y ->
  exists tok, MentionToken tok /\ s = tok ++ snd y.
Proof.
  unfold RegExp.match_at, RegExp.mentionRegex.
  rewrite compile_seq. unfold RegExp.chr at 1. rewrite compile_class.
  destruct s as [|c0 s]; [discriminate|].
  change (N_of_ascii "<") with 60%N.
  destruct (N.eqb_spec 60 c0) as [<-|]; [|discriminate].
  rewrite compile_seq. unfold RegExp.chr at 1. rewrite compile_class.
  destruct s as [|c1 s]; [discriminate|].
  change (N_of_ascii "@") with 64%N.
  destruct (N.eqb_spec 64 c1) as [<-|]; [|discriminate].
  rewrite compile_seq. unfold RegExp.chr at 1. rewrite compile_opt_class.
  change (N_of_ascii "&") with 38%N.
  assert (Hplain : forall q',
    RegExp.compile
      (RegExp.Seq (RegExp.plus (RegExp.Class RegExp.digit)) (RegExp.chr ">"))
      (q', s) (fun y => Some y) = Some y ->
    exists tok, MentionToken tok /\ 60%N :: 64%N :: s = tok ++ snd y).
  { intros q'. rewrite compile_seq. intros H.
    apply digits_gt_inv in H as (ds & rest & Hne & Hds & -> & Hk).
    inversion Hk; subst; clear Hk.
    exists ([60%N; 64%N] ++ [] ++ ds ++ [62%N]). split.
    - exists [], ds. auto.
    - cbn [app snd]. rewrite <- app_assoc. reflexivity. }
  destruct s as [|c2 s']; [apply Hplain|].
  destruct (N.eqb_spec 38 c2) as [<-|]; [|apply Hplain].
  match goal with
  | |- match ?e with _ => _ end = _ -> _ => destruct e as [z|] eqn:E
  end; [|apply Hplain].
  intros Hz; inversion Hz; subst; clear Hz.
  rewrite compile_seq in E.
  apply digits_gt_inv in E as (ds & rest & Hne & Hds & -> & Hk).
  inversion Hk; subst; clear Hk.
  exists ([60%N; 64%N] ++ [38%N] ++ ds ++ [62%N]). split.
  - exists [38%N], ds. auto.
  - cbn [app snd]. rewrite <- app_assoc. reflexivity.
Qed.

(** Where a user mention begins, [userMentionRegex] matches it and the
    white space after it. *)
Lemma userMention_hit q ds ws rest :
  ds <> [] -> forallb RegExp.digit ds = true ->
  forallb RegExp.space ws = true -> NoLeadingSpace rest ->
  exists q',
    RegExp.match_at RegExp.userMentionRegex
      (q, [60%N; 64%N] ++ ds ++ [62%N] ++ ws ++ rest)
    = Some (q', rest).
Proof.
  intros Hne Hds Hws Hrest. unfold RegExp.match_at, RegExp.userMentionRegex.
  rewrite compile_seq. unfold RegExp.chr at 1. rewrite compile_class.
  cbn [app]. change (N.eqb (N_of_ascii "<") 60) with true. cbv iota.
  rewrite compile_seq. unfold RegExp.chr at 1. rewrite compile_class.
  change (N.eqb (N_of_ascii "@") 64) with true. cbv iota.
  rewrite compile_seq.
  destruct (skip_app RegExp.space ws rest (Some 62%N) Hws) as (q' & Hskip).
  exists q'.
  refine (eq_trans
            (digits_gt_hit
               (fun y => RegExp.compile
                           (RegExp.star (RegExp.Class RegExp.space))
                           y (fun y => Some y))
               (Some 64%N) ds (ws ++ rest) Hne Hds) _).
  unfold RegExp.star. rewrite compile_quant.
  assert (Hstop : skip RegExp.space q' rest = (q', rest)).
  { apply skip_stop. destruct rest as [|c rest]; [reflexivity|].
    simpl in *. rewrite Hrest. reflexivity. }
  apply RepeatMatcher_class_accept.
  - cbn [snd]. lia.
  - lia.
  - rewrite Hskip, Hstop. reflexivity.
Qed.

(** What [userMentionRegex] matches begins with a user mention. *)
Lemma userMention_inv q s y :
  RegExp.match_at RegExp.userMentionRegex (q, s) = Some y ->
  StartsWithUserMention s.
Proof.
  unfold RegExp.match_at, RegExp.userMentionRegex.
  rewrite compile_seq. unfold RegExp.chr at 1. rewrite compile_class.
  destruct s as [|c0 s]; [discriminate|].
  change (N_of_ascii "<") with 60%N.
  destruct (N.eqb_spec 60 c0) as [<-|]; [|discriminate].
  rewrite compile_seq. unfold RegExp.chr at 1. rewrite compile_class.
  destruct s as [|c1 s]; [discriminate|].
  change (N_of_ascii "@") with 64%N.
  destruct (N.eqb_spec 64 c1) as [<-|]; [|discriminate].
  rewrite compile_seq. intros H.
  apply digits_gt_inv in H as (ds & rest & Hne & Hds & -> & _).
  exists ds, rest. repeat split; auto.
Qed.

(** *** handleResponse: the limit on the length *)

Lemma requesterId_trace message interaction :
  Async.trace (requesterId message interaction) = [].
Proof.
  unfold requesterId.
  destruct (JS.truthy _); [destruct (option_map _ message)|destruct interaction];
    reflexivity.
Qed.

Lemma scanMentions_trace fuel x message interaction :
  Async.trace (scanMentions fuel x message interaction) = [].
Proof.
  revert x; induction fuel as [|fuel IH]; intros x; [reflexivity|].
  cbn [scanMentions].
  destruct (RegExp.exec RegExp.mentionRegex (fst x) (snd x)) as [m|];
    [|reflexivity].
  pose proof (requesterId_trace message interaction) as Hid.
  destruct (requesterId message interaction) as [tr [id| |]];
    cbn [Async.trace fst] in Hid; subst tr; try reflexivity.
  cbn [Async.bind].
  destruct (negb _); [reflexivity|].
  specialize (IH (RegExp.after m)).
  destruct (scanMentions fuel (RegExp.after m) message interaction).
  exact IH.
Qed.

Lemma createInfoEmbed_trace isContextMenuCommand message messageDeleted :
  Async.trace (createInfoEmbed isContextMenuCommand message messageDeleted) = [].
Proof.
  unfold createInfoEmbed.
  destruct isContextMenuCommand; [destruct message|]; reflexivity.
Qed.

(** The calls [handleResponse] makes once the model has answered: the
    question is sent, then the loading message is edited at most once,
    either to the mention notice or to the text of lines 96 to 98. *)
Lemma handleResponse_calls chat userQuestion interaction message
    messageDeleted isContextMenuCommand text :
  Chat.sendMessage chat userQuestion = inr text ->
  Async.trace (handleResponse chat userQuestion interaction message
                 messageDeleted isContextMenuCommand)
  = [ChatSendMessage userQuestion]
  \/ Async.trace (handleResponse chat userQuestion interaction message
                    messageDeleted isContextMenuCommand)
     = [ChatSendMessage userQuestion; LoadingMsgEdit None [pingError]]
  \/ exists infoEmbed,
       handleResponse chat userQuestion interaction message
         messageDeleted isContextMenuCommand
       = ([ChatSendMessage userQuestion;
           LoadingMsgEdit (Some (limitResponseText text)) infoEmbed],
          Normal tt).
Proof.
  intros Hsend. unfold handleResponse. rewrite Hsend.
  cbn [Async.call Async.bind].
  pose proof (scanMentions_trace (S (JS.length (limitResponseText text)))
                (None, limitResponseText text) message interaction) as Hscan.
  destruct (scanMentions _ _ message interaction) as [tr [[|]| |]];
    cbn [Async.trace fst] in Hscan; subst tr; cbn [app Async.emit fst];
    auto.
  pose proof (createInfoEmbed_trace isContextMenuCommand message messageDeleted)
    as Hinfo.
  destruct (createInfoEmbed _ _ _) as [tr [infoEmbed| |]];
    cbn [Async.trace fst] in Hinfo; subst tr;
    cbn [Async.bind Async.emit app fst Async.trace]; eauto.
Qed.

(** C7. A response longer than 2000 code units is cut to its first
    1936 code units followed by the fixed notice, a response of at most
    2000 is left as it is, and that text is the only content
    [handleResponse] ever edits into the loading message; a response of
    2500 code units keeps exactly 1936 of its own. *)
Theorem handleResponse_truncates :
  forall chat userQuestion interaction message messageDeleted
         isContextMenuCommand text,
    Chat.sendMessage chat userQuestion = inr text ->
    ((2000 < JS.length text)%nat ->
       limitResponseText text = firstn 1936 text ++ truncationNotice
       /\ List.length (firstn 1936 text) = 1936%nat)
    /\ (JS.length text = 2500%nat ->
          limitResponseText text = firstn 1936 text ++ truncationNotice
          /\ List.length (firstn 1936 text) = 1936%nat)
    /\ ((JS.length text <= 2000)%nat -> limitResponseText text = text)
    /\ (forall content embeds,
          In (LoadingMsgEdit (Some content) embeds)
             (Async.trace (handleResponse chat userQuestion interaction message
                             messageDeleted isContextMenuCommand)) ->
          content = limitResponseText text).
Proof.
  intros chat userQuestion interaction message messageDeleted
         isContextMenuCommand text Hsend.
  assert (Hlong : (2000 < JS.length text)%nat ->
            limitResponseText text = firstn 1936 text ++ truncationNotice
            /\ List.length (firstn 1936 text) = 1936%nat).
  { intros Hlen. unfold limitResponseText, JS.substring0.
    apply Nat.ltb_lt in Hlen as Hlt. rewrite Hlt. split; [reflexivity|].
    apply firstn_length_le. unfold JS.length in Hlen. lia. }
  repeat split.
  - apply Hlong; assumption.
  - apply Hlong; lia.
  - apply Hlong; lia.
  - apply Hlong; lia.
  - intros Hlen. unfold limitResponseText.
    replace (2000 <? JS.length text)%nat with false
      by (symmetry; apply Nat.ltb_ge; exact Hlen).
    reflexivity.
  - intros content embeds Hin.
    destruct (handleResponse_calls chat userQuestion interaction message
                messageDeleted isContextMenuCommand text Hsend)
      as [H | [H | (infoEmbed & H)]]; rewrite H in Hin; simpl in Hin.
    + destruct Hin as [Hev | []]; discriminate Hev.
    + destruct Hin as [Hev | [Hev | []]]; discriminate Hev.
    + destruct Hin as [Hev | [Hev | []]]; [discriminate Hev|].
      inversion Hev; reflexivity.
Qed.

(** A response of 2500 code units, asked by [alice]: the loading
    message is edited to 1936 of them and the notice. *)
Lemma handleResponse_truncates_witness :
  JS.length Examples.longText = 2500%nat
  /\ limitResponseText Examples.longText
     = firstn 1936 Examples.longText ++ truncationNotice
  /\ List.length (firstn 1936 Examples.longText) = 1936%nat
  /\ handleResponse (Examples.chatAnswering Examples.longText)
       (JS.lit "what is a monad?") None (Some Examples.question) None false
     = ([ChatSendMessage (JS.lit "what is a monad?");
         LoadingMsgEdit
           (Some (firstn 1936 Examples.longText ++ truncationNotice)) []],
        Normal tt).
Proof.
  pose proof (handleResponse_truncates
                (Examples.chatAnswering Examples.longText)
                (JS.lit "what is a monad?") None (Some Examples.question)
                None false Examples.longText eq_refl) as (_ & H & _).
  split; [reflexivity|].
  split; [apply H; reflexivity|].
  split; [apply H; reflexivity|].
  vm_compute. reflexivity.
Defined.

(** *** handleGeminiError *)

Lemma lookup_not_quota (err : GeminiError.t) :
  GeminiError.message err <> quotaKey ->
  isQuotaError (lookupErrorResponse err) = false.
Proof.
  destruct err as [msg]; cbn [GeminiError.message]; intros Hne.
  unfold lookupErrorResponse, JS.get; cbn [GeminiError.message].
  unfold errorResponses at 1; cbn [JS.ownProperty].
  destruct (JS.eqb safetyKey msg); [reflexivity|].
  destruct (JS.eqb locationKey msg); [reflexivity|].
  destruct (JS.eqb quotaKey msg) eqn:E;
    [apply eqb_eq in E; congruence|].
  destruct (JS.eqb emptyMessageKey msg); [reflexivity|].
  destruct (JS.eqb internalKey msg); [reflexivity|].
  destruct (JS.eqb defaultKey msg); [reflexivity|].
  destruct (existsb (JS.eqb msg) JS.objectPrototype); reflexivity.
Qed.

Lemma countdown_steps (embed : EmbedBuilder.t) (i : nat) :
  countdown i embed
  = (flat_map (countdownStep embed) (rev (seq 1 i)), Normal tt).
Proof.
  revert embed; induction i as [|i IH]; intros embed; [reflexivity|].
  cbn [countdown]. rewrite IH.
  rewrite seq_S, rev_app_distr. reflexivity.
Qed.

Lemma ownProperty_none {A} (o : list (jsstring * A)) (key : jsstring) :
  ~ In key (map fst o) -> JS.ownProperty o key = None.
Proof.
  induction o as [|[k a] o IH]; intros Hnot; [reflexivity|].
  cbn [JS.ownProperty].
  destruct (JS.eqb k key) eqn:E.
  - apply eqb_eq in E. exfalso. apply Hnot. left. exact E.
  - apply IH. intros H. apply Hnot. right. exact H.
Qed.

Lemma existsb_eqb_in (key : jsstring) (names : list jsstring) :
  existsb (JS.eqb key) names = true <-> In key names.
Proof.
  split.
  - intros H. apply existsb_exists in H as (name & Hin & Heq).
    apply eqb_eq in Heq. subst name. exact Hin.
  - intros H. apply existsb_exists. exists key.
    split; [exact H | apply eqb_refl].
Qed.

(** None of the names every object inherits is a key of the table. *)
Lemma inherited_no_key (msg : jsstring) :
  In msg JS.objectPrototype -> JS.ownProperty errorResponses msg = None.
Proof.
  unfold JS.objectPrototype; cbn [map In]; intros H.
  repeat (destruct H as [H|H]; [subst msg; vm_compute; reflexivity|]).
  destruct H.
Qed.

(** An error whose message is the name of an inherited member: the
    member is found, it has no title, and [setTitle] refuses. *)
Lemma handleGeminiError_inherited (err : GeminiError.t) :
  In (GeminiError.message err) JS.objectPrototype ->
  handleGeminiError err = ([], Throw OtherError).
Proof.
  destruct err as [msg]; cbn [GeminiError.message]; intros Hproto.
  unfold handleGeminiError, lookupErrorResponse, JS.get.
  cbn [GeminiError.message]. rewrite (inherited_no_key msg Hproto).
  apply existsb_eqb_in in Hproto. rewrite Hproto. reflexivity.
Qed.

(** An error whose message is neither a key nor an inherited name: the
    entry [default] is shown, in one edit. *)
Lemma handleGeminiError_default (err : GeminiError.t) :
  JS.ownProperty errorResponses (GeminiError.message err) = None ->
  ~ In (GeminiError.message err) JS.objectPrototype ->
  handleGeminiError err
  = ([LoadingMsgEdit None [notice Notions.defaultResponse]], Normal None).
Proof.
  destruct err as [msg]; cbn [GeminiError.message]; intros Hown Hproto.
  unfold handleGeminiError, lookupErrorResponse, JS.get.
  cbn [GeminiError.message]. rewrite Hown.
  replace (existsb (JS.eqb msg) JS.objectPrototype) with false.
  - vm_compute. reflexivity.
  - symmetry. apply not_true_is_false. intros H.
    apply existsb_eqb_in in H. contradiction.
Qed.

(** C8. On the quota error [handleGeminiError] edits the loading
    message ten times, the footer reading "Retrying request in (10)",
    "(9)", ..., "(1)", each edit followed by a wait of one second, and
    fulfils with ["quota_error"].  On another error it makes one edit
    and fulfils with [undefined]: the edit shows the entry written for
    the message, or the entry [default] when none is written.  That
    fails for a message that is the name of a member every object
    inherits ([constructor], [toString], ...): the member is found
    where the entry [default] was meant, [setTitle] is given
    [undefined] and throws, and the loading message is not edited. *)
Theorem handleGeminiError_countdown :
  forall err : GeminiError.t,
    (GeminiError.message err = quotaKey ->
       handleGeminiError err
       = (flat_map
            (fun count : string =>
               [ LoadingMsgEdit None
                   [ {| EmbedBuilder.title :=
                          Some ([9888%N; 65039%N] ++ JS.lit " An Error Occurred");
                        EmbedBuilder.description :=
                          Some (JS.lit "There are a lot of requests at the moment. Please try again later, or in a few minutes. " ++ [10%N]
                                ++ [9656%N] ++ JS.lit " *If this issue persists after a few minutes, please contact the Developers.* " ++ [10%N]
                                ++ JS.lit " - *We are aware of these issues and apologize for the inconvenience.* " ++ [10%N]
                                ++ JS.lit "> - Token Limit for this minute has been reached.");
                        EmbedBuilder.color := Some Red;
                        EmbedBuilder.footer :=
                          Some ([9201%N; 65039%N]
                                ++ JS.lit " Retrying request in ("
                                ++ JS.lit count ++ JS.lit ")") |} ];
                 SetTimeout 1000 ])
            ["10"; "9"; "8"; "7"; "6"; "5"; "4"; "3"; "2"; "1"]%string,
          Normal (Some (JS.lit "quota_error"))))
    /\ (GeminiError.message err <> quotaKey ->
        (forall entry,
           JS.ownProperty errorResponses (GeminiError.message err)
           = Some entry ->
           handleGeminiError err
           = ([LoadingMsgEdit None [notice entry]], Normal None))
        /\ (JS.ownProperty errorResponses (GeminiError.message err) = None ->
            ~ In (GeminiError.message err) JS.objectPrototype ->
            handleGeminiError err
            = ([LoadingMsgEdit None [notice Notions.defaultResponse]],
               Normal None))
        /\ (In (GeminiError.message err) JS.objectPrototype ->
            handleGeminiError err = ([], Throw OtherError))).
Proof.
  intros err; split.
  - destruct err as [msg]; cbn [GeminiError.message]; intros ->.
    vm_compute. reflexivity.
  - intros Hne. split; [|split].
    + intros entry Hown.
      pose proof (lookup_not_quota err Hne) as Hquota.
      unfold handleGeminiError.
      unfold lookupErrorResponse, JS.get in Hquota |- *.
      rewrite Hown in Hquota |- *.
      unfold isQuotaError in Hquota |- *. cbn [JS.field] in Hquota |- *.
      rewrite Hquota. reflexivity.
    + apply handleGeminiError_default.
    + apply handleGeminiError_inherited.
Qed.

(** The quota error; the error of an empty message, which has an entry;
    an error no entry is written for; and an error named [constructor],
    for which nothing is shown. *)
Lemma handleGeminiError_countdown_witness :
  (map (fun e => match e with
                 | LoadingMsgEdit None [embed] => EmbedBuilder.footer embed
                 | _ => None
                 end)
     (Async.trace (handleGeminiError Examples.quotaExceeded))
   = [ Some ([9201%N; 65039%N] ++ JS.lit " Retrying request in (10)"); None;
       Some ([9201%N; 65039%N] ++ JS.lit " Retrying request in (9)"); None;
       Some ([9201%N; 65039%N] ++ JS.lit " Retrying request in (8)"); None;
       Some ([9201%N; 65039%N] ++ JS.lit " Retrying request in (7)"); None;
       Some ([9201%N; 65039%N] ++ JS.lit " Retrying request in (6)"); None;
       Some ([9201%N; 65039%N] ++ JS.lit " Retrying request in (5)"); None;
       Some ([9201%N; 65039%N] ++ JS.lit " Retrying request in (4)"); None;
       Some ([9201%N; 65039%N] ++ JS.lit " Retrying request in (3)"); None;
       Some ([9201%N; 65039%N] ++ JS.lit " Retrying request in (2)"); None;
       Some ([9201%N; 65039%N] ++ JS.lit " Retrying request in (1)"); None ]
   /\ Async.completion (handleGeminiError Examples.quotaExceeded)
      = Normal (Some (JS.lit "quota_error")))
  /\ handleGeminiError {| GeminiError.message := emptyMessageKey |}
     = ([ LoadingMsgEdit None
            [ {| EmbedBuilder.title :=
                   Some ([9888%N; 65039%N] ++ JS.lit " An Error Occurred");
                 EmbedBuilder.description :=
                   Some (JS.lit "An error occurred while processing your request. Please try again later, or in a few minutes. " ++ [10%N]
                         ++ [9656%N] ++ JS.lit " *If this issue persists, please contact the Developers.* " ++ [10%N]
                         ++ JS.lit "> - Generated response may be too long. *(Fix this by specifying for the generated response to be smaller, e.g. 10 Lines)*" ++ [10%N]
                         ++ JS.lit "> - Token Limit for this minute may have been reached.");
                 EmbedBuilder.color := Some Red;
                 EmbedBuilder.footer := None |} ] ],
        Normal None)
  /\ handleGeminiError Examples.unknownError
     = ([ LoadingMsgEdit None
            [ {| EmbedBuilder.title :=
                   Some ([9888%N; 65039%N] ++ JS.lit " An Error Occurred");
                 EmbedBuilder.description :=
                   Some (JS.lit "An unknown error occurred while processing your request. Please try again later, or in a few minutes. " ++ [10%N]
                         ++ [9656%N] ++ JS.lit " *If this issue persists, please contact the Developers.*" ++ [10%N]
                         ++ JS.lit "> - Token Limit for this minute may have been reached.");
                 EmbedBuilder.color := Some Red;
                 EmbedBuilder.footer := None |} ] ],
        Normal None)
  /\ handleGeminiError Examples.constructorError = ([], Throw OtherError).
Proof.
  assert (Hempty : emptyMessageKey <> quotaKey)
    by (intros H; vm_compute in H; discriminate H).
  assert (Hunknown : JS.lit "fetch failed" <> quotaKey)
    by (intros H; vm_compute in H; discriminate H).
  assert (Hconstructor : JS.lit "constructor" <> quotaKey)
    by (intros H; vm_compute in H; discriminate H).
  split; [|split; [|split]].
  - rewrite (proj1 (handleGeminiError_countdown Examples.quotaExceeded)
               eq_refl).
    split; vm_compute; reflexivity.
  - destruct (proj2 (handleGeminiError_countdown
                       {| GeminiError.message := emptyMessageKey |}) Hempty)
      as (Hentry & _).
    rewrite (Hentry _ eq_refl). vm_compute. reflexivity.
  - destruct (proj2 (handleGeminiError_countdown Examples.unknownError)
                Hunknown) as (_ & Hdefault & _).
    rewrite Hdefault.
    + vm_compute. reflexivity.
    + vm_compute. reflexivity.
    + vm_compute. intuition discriminate.
  - destruct (proj2 (handleGeminiError_countdown Examples.constructorError)
                Hconstructor) as (_ & _ & Hthrow).
    apply Hthrow. vm_compute. left. reflexivity.
Defined.

(** *** checkGeminiApiKey *)

Lemma keyRejected_short (key : option jsstring) :
  key = None \/ (exists k, key = Some k /\ (JS.length k < 4)%nat) ->
  keyRejected key = true.
Proof.
  intros [-> | (k & -> & Hlen)]; [reflexivity|].
  unfold keyRejected. apply Nat.ltb_lt in Hlen. rewrite Hlen.
  apply orb_true_r.
Qed.

Lemma keyRejected_long (k : jsstring) :
  (4 <= JS.length k)%nat -> keyRejected (Some k) = false.
Proof.
  intros Hlen. unfold keyRejected.
  destruct k as [|c k]; [simpl in Hlen; lia|].
  apply Nat.ltb_ge in Hlen. rewrite Hlen. reflexivity.
Qed.

(** C10. Without a key, or with a key of fewer than four code units,
    [fetchThreadMessages] replies to the message with the invalid-key
    notice and returns nothing: no message is fetched, no history is
    made.  A key of four code units or more passes the check without a
    reply, and which key it is makes no difference to what follows. *)
Theorem fetchThreadMessages_key_check :
  forall scope fuel channel message,
    (forall key,
       key = None \/ (exists k, key = Some k /\ (JS.length k < 4)%nat) ->
       fetchThreadMessages scope fuel channel key message
       = ([MessageReply [invalidApiEmbed]], Normal None))
    /\ (forall k k',
          (4 <= JS.length k)%nat -> (4 <= JS.length k')%nat ->
          checkGeminiApiKey (Some k) None (Some message) = ([], Normal None)
          /\ fetchThreadMessages scope fuel channel (Some k) message
             = fetchThreadMessages scope fuel channel (Some k') message).
Proof.
  intros scope fuel channel message; split.
  - intros key Hkey. unfold fetchThreadMessages, checkGeminiApiKey.
    rewrite (keyRejected_short key Hkey). reflexivity.
  - intros k k' Hk Hk'.
    unfold fetchThreadMessages, checkGeminiApiKey.
    rewrite (keyRejected_long k Hk), (keyRejected_long k' Hk').
    split; reflexivity.
Qed.

(** No key, the key [abc], and the keys [abcd] and [wxyz]. *)
Lemma fetchThreadMessages_key_check_witness :
  fetchThreadMessages fileScope 8 Examples.emptyChannel None
    (Examples.replyTo "1")
  = ([MessageReply [invalidApiEmbed]], Normal None)
  /\ fetchThreadMessages fileScope 8 Examples.emptyChannel
       (Some (JS.lit "abc")) (Examples.replyTo "1")
     = ([MessageReply [invalidApiEmbed]], Normal None)
  /\ checkGeminiApiKey (Some (JS.lit "abcd")) None
       (Some (Examples.replyTo "1")) = ([], Normal None)
  /\ fetchThreadMessages fileScope 8 Examples.emptyChannel
       (Some (JS.lit "abcd")) (Examples.replyTo "1")
     = fetchThreadMessages fileScope 8 Examples.emptyChannel
         (Some (JS.lit "wxyz")) (Examples.replyTo "1").
Proof.
  pose proof (fetchThreadMessages_key_check fileScope 8 Examples.emptyChannel
                (Examples.replyTo "1")) as [Hshort Hlong].
  split; [apply Hshort; left; reflexivity|].
  split; [apply Hshort; right; exists (JS.lit "abc");
          split; [reflexivity | vm_compute; lia]|].
  apply (Hlong (JS.lit "abcd") (JS.lit "wxyz")); vm_compute; lia.
Defined.

(** *** getThreadMessages *)

Lemma walk_unfold fuel channel message linkRegex threadMessages currentMessage :
  walk fuel channel message linkRegex threadMessages currentMessage
  = match walkOn message linkRegex currentMessage with
    | Some reference =>
        match fuel with
        | O => Async.pending
        | S fuel' =>
            Async.bind
              (Async.call (MessagesFetch (MessageReference.messageId reference))
                 (Channel.fetch channel (MessageReference.messageId reference)))
              (fun currentMessage' =>
                 walk fuel' channel message linkRegex
                   (recordTurns message currentMessage' threadMessages)
                   currentMessage')
        end
    | None => Async.ret threadMessages
    end.
Proof. destruct fuel; reflexivity. Qed.

(** The body of the loop only adds in front of what is there. *)
Lemma recordTurns_app message fetched threadMessages :
  recordTurns message fetched threadMessages
  = turnsOf message fetched ++ threadMessages.
Proof.
  unfold turnsOf, recordTurns, unshift.
  destruct (JS.eqb _ _); [|reflexivity].
  destruct (Message.embeds fetched) as [|embed0 embeds]; [reflexivity|].
  destruct (Embed.footer embed0) as [footer|]; [|reflexivity].
  destruct (EmbedFooter.text footer) as [footerText|]; [|reflexivity].
  destruct (JS.startsWith responsePrefix footerText); reflexivity.
Qed.

Lemma turnsOf_length message fetched :
  List.length (turnsOf message fetched)
  = if quotesUser message fetched then 2%nat else 1%nat.
Proof.
  unfold turnsOf, recordTurns, quotesUser, unshift.
  destruct (JS.eqb _ _); [|reflexivity].
  destruct (Message.embeds fetched) as [|embed0 embeds]; [reflexivity|].
  destruct (Embed.footer embed0) as [footer|]; [|reflexivity].
  destruct (EmbedFooter.text footer) as [footerText|]; [|reflexivity].
  destruct (JS.startsWith responsePrefix footerText); reflexivity.
Qed.

Lemma bind_call_completion {A B} (ev : Event) (a : A) (f : A -> Async.t B) :
  Async.completion (Async.bind (Async.call ev (inr a)) f)
  = Async.completion (f a).
Proof.
  unfold Async.call, Async.bind, Async.completion.
  destruct (f a); reflexivity.
Qed.

(** Along a chain the walk fulfils, with the turns of the messages of
    the chain from the last fetched to the first, in front of the turns
    it started with. *)
Lemma walk_chain channel message linkRegex currentMessage ms :
  Chain channel message linkRegex currentMessage ms ->
  forall fuel threadMessages,
    (List.length ms <= fuel)%nat ->
    Async.completion
      (walk fuel channel message linkRegex threadMessages currentMessage)
    = Normal (flat_map (turnsOf message) (rev ms) ++ threadMessages).
Proof.
  induction 1 as [cur Hstop | cur reference fetched older Hgo Hfetch _ IH];
    intros fuel threadMessages Hfuel; rewrite walk_unfold.
  - rewrite Hstop. reflexivity.
  - rewrite Hgo. destruct fuel as [|fuel]; [simpl in Hfuel; lia|].
    rewrite Hfetch, bind_call_completion.
    rewrite IH by (simpl in Hfuel; lia).
    rewrite recordTurns_app. cbn [rev].
    rewrite flat_map_app. cbn [flat_map].
    rewrite app_nil_r, <- app_assoc. reflexivity.
Qed.

(** Whatever the walk fulfils with ends with the turns it started with. *)
Lemma walk_prepends channel message linkRegex :
  forall fuel threadMessages currentMessage turns,
    Async.completion
      (walk fuel channel message linkRegex threadMessages currentMessage)
    = Normal turns ->
    exists older, turns = older ++ threadMessages.
Proof.
  induction fuel as [|fuel IH]; intros threadMessages cur turns;
    rewrite walk_unfold;
    destruct (walkOn message linkRegex cur) as [reference|].
  - discriminate.
  - intros H; inversion H. exists []. reflexivity.
  - destruct (Channel.fetch channel (MessageReference.messageId reference))
      as [e | fetched]; [discriminate|].
    rewrite bind_call_completion. intros H.
    apply IH in H as (older & ->).
    rewrite recordTurns_app. exists (older ++ turnsOf message fetched).
    rewrite <- app_assoc. reflexivity.
  - intros H; inversion H. exists []. reflexivity.
Qed.

(** C1. Along any reply chain, [getThreadMessages] returns the turns of
    the fetched messages in the reverse of the order it fetched them:
    each message is a reply to the one fetched after it, so the turns
    of an older message come before the turns of every newer one. *)
Theorem getThreadMessages_chronological :
  forall channel message linkRegex ms fuel,
    Chain channel message linkRegex message ms ->
    (List.length ms <= fuel)%nat ->
    Async.completion (getThreadMessages fuel channel message linkRegex)
    = Normal (flat_map (turnsOf message) (rev ms))
    /\ (forall i j newer older,
          (i < j)%nat ->
          nth_error ms i = Some newer -> nth_error ms j = Some older ->
          exists l1 l2 l3,
            flat_map (turnsOf message) (rev ms)
            = l1 ++ turnsOf message older ++ l2
                 ++ turnsOf message newer ++ l3).
Proof.
  intros channel message linkRegex ms fuel Hchain Hfuel. split.
  - unfold getThreadMessages.
    rewrite (walk_chain _ _ _ _ _ Hchain fuel [] Hfuel).
    rewrite app_nil_r. reflexivity.
  - intros i j newer older Hij Hi Hj.
    apply nth_error_split in Hi as (a & b & -> & Ha).
    rewrite nth_error_app2 in Hj by lia.
    replace (j - List.length a)%nat with (S (j - List.length a - 1)) in Hj by lia.
    cbn [nth_error] in Hj.
    apply nth_error_split in Hj as (b1 & b2 & -> & _).
    exists (flat_map (turnsOf message) (rev b2)),
           (flat_map (turnsOf message) (rev b1)),
           (flat_map (turnsOf message) (rev a)).
    rewrite rev_app_distr. cbn [rev].
    rewrite rev_app_distr. cbn [rev].
    rewrite !flat_map_app. cbn [flat_map].
    rewrite !app_nil_r, <- !app_assoc. reflexivity.
Qed.

(** The chain of the thread of three: the answer, then the question. *)
Lemma thread_chain :
  Chain Examples.threadChannel (Examples.replyTo "11") RegExp.linkRegex
    (Examples.replyTo "11") [Examples.firstAnswer; Examples.firstQuestion].
Proof.
  eapply Chain_step; [vm_compute; reflexivity | vm_compute; reflexivity |].
  eapply Chain_step; [vm_compute; reflexivity | vm_compute; reflexivity |].
  apply Chain_end. vm_compute; reflexivity.
Defined.

(** The reply to the plain answer: the question comes first, without
    its mention of the bot, then the answer. *)
Lemma getThreadMessages_chronological_witness :
  Async.completion
    (getThreadMessages 2 Examples.threadChannel (Examples.replyTo "11")
       RegExp.linkRegex)
  = Normal [ Turn.make user (Some (JS.lit "what is a monad?"));
             Turn.make model
               (Some (JS.lit "A monoid in the category of endofunctors.")) ].
Proof.
  destruct (getThreadMessages_chronological Examples.threadChannel
              (Examples.replyTo "11") RegExp.linkRegex
              [Examples.firstAnswer; Examples.firstQuestion] 2
              thread_chain (le_n 2)) as [H _].
  rewrite H. vm_compute. reflexivity.
Defined.

(** The chain of the two quoting answers. *)
Lemma quoting_chain :
  Chain Examples.quotingChannel (Examples.replyTo "1") RegExp.linkRegex
    (Examples.replyTo "1") [Examples.quotedAnswer1; Examples.quotedAnswer2].
Proof.
  eapply Chain_step; [vm_compute; reflexivity | vm_compute; reflexivity |].
  eapply Chain_step; [vm_compute; reflexivity | vm_compute; reflexivity |].
  apply Chain_end. vm_compute; reflexivity.
Defined.

(** C5, as stated, fails: a chain of two answers that both quote the
    message they answer gives four turns, neither two nor three. *)
Lemma getThreadMessages_length_counterexample :
  Chain Examples.quotingChannel (Examples.replyTo "1") RegExp.linkRegex
    (Examples.replyTo "1") [Examples.quotedAnswer1; Examples.quotedAnswer2]
  /\ getThreadMessages 2 Examples.quotingChannel (Examples.replyTo "1")
       RegExp.linkRegex
     = ([MessagesFetch (JS.lit "1"); MessagesFetch (JS.lit "2")],
        Normal
          [ Turn.make user (Some (JS.lit "where is it documented?"));
            Turn.make model
              (Some (JS.lit "It is documented at https://example.org/b"));
            Turn.make user (Some (JS.lit "any pointer?"));
            Turn.make model (Some (JS.lit "See https://example.org/a")) ])
  /\ ~ (exists turns,
          Async.completion
            (getThreadMessages 2 Examples.quotingChannel
               (Examples.replyTo "1") RegExp.linkRegex) = Normal turns
          /\ (List.length turns = 2%nat \/ List.length turns = (2 + 1)%nat)).
Proof.
  split; [exact quoting_chain|].
  split; [vm_compute; reflexivity|].
  intros (turns & Hturns & Hlen). vm_compute in Hturns.
  inversion Hturns; subst turns. simpl in Hlen. lia.
Qed.

(** A quoting answer without a link in its content ends the walk. *)
Lemma quoting_ends_walk message linkRegex fetched :
  quotesUser message fetched = true ->
  RegExp.test linkRegex (Message.content fetched) = false ->
  walkOn message linkRegex fetched = None.
Proof.
  unfold quotesUser, walkOn. intros Hq Hlink.
  apply andb_true_iff in Hq as [Hbot Hfooter].
  destruct (Message.reference fetched); [|reflexivity].
  rewrite Hbot, Hlink.
  destruct (Message.embeds fetched); [discriminate|]. reflexivity.
Qed.

Lemma chain_quotes_once channel message linkRegex currentMessage ms :
  Chain channel message linkRegex currentMessage ms ->
  (forall m, In m ms -> quotesUser message m = true ->
             RegExp.test linkRegex (Message.content m) = false) ->
  (List.length (filter (quotesUser message) ms) <= 1)%nat.
Proof.
  induction 1 as [cur Hstop | cur reference fetched older Hgo Hfetch Hrest IH];
    intros Hlinks; [simpl; lia|].
  cbn [filter]. destruct (quotesUser message fetched) eqn:Hq.
  - pose proof (quoting_ends_walk message linkRegex fetched Hq
                  (Hlinks fetched (or_introl eq_refl) Hq)) as Hend.
    inversion Hrest; subst; [simpl; lia | congruence].
  - apply IH. intros m Hin. apply Hlinks. right; exact Hin.
Qed.

Lemma flat_map_turnsOf_length message ms :
  List.length (flat_map (turnsOf message) ms)
  = (List.length ms + List.length (filter (quotesUser message) ms))%nat.
Proof.
  induction ms as [|m ms IH]; [reflexivity|].
  cbn [flat_map filter]. rewrite length_app, IH, turnsOf_length.
  destruct (quotesUser message m); simpl; lia.
Qed.

Lemma filter_rev_length {A} (f : A -> bool) (l : list A) :
  List.length (filter f (rev l)) = List.length (filter f l).
Proof.
  induction l as [|a l IH]; [reflexivity|].
  cbn [rev filter]. rewrite filter_app, length_app, IH. cbn [filter].
  destruct (f a); simpl; lia.
Qed.

Lemma getThreadMessages_chain_turns channel message linkRegex ms fuel :
  Chain channel message linkRegex message ms ->
  (List.length ms <= fuel)%nat ->
  exists turns,
    Async.completion (getThreadMessages fuel channel message linkRegex)
    = Normal turns
    /\ List.length turns
       = (List.length ms + List.length (filter (quotesUser message) ms))%nat.
Proof.
  intros Hchain Hfuel. unfold getThreadMessages.
  rewrite (walk_chain _ _ _ _ _ Hchain fuel [] Hfuel).
  eexists; split; [reflexivity|].
  rewrite app_nil_r, flat_map_turnsOf_length, length_rev, filter_rev_length.
  reflexivity.
Qed.

(** C5, amended. Along a reply chain of [N] fetched messages the turns
    number [N] plus the number of fetched messages that quote a user:
    [N] when none does, [N + 1] when one does, and never more than
    [N + 1] when no quoting message has a link in its content. *)
Theorem getThreadMessages_length :
  forall channel message linkRegex ms fuel,
    Chain channel message linkRegex message ms ->
    (List.length ms <= fuel)%nat ->
    exists turns,
      Async.completion (getThreadMessages fuel channel message linkRegex)
      = Normal turns
      /\ List.length turns
         = (List.length ms
            + List.length (filter (quotesUser message) ms))%nat
      /\ (List.length (filter (quotesUser message) ms) = 0%nat ->
          List.length turns = List.length ms)
      /\ (List.length (filter (quotesUser message) ms) = 1%nat ->
          List.length turns = (List.length ms + 1)%nat)
      /\ ((forall m, In m ms -> quotesUser message m = true ->
                     RegExp.test linkRegex (Message.content m) = false) ->
          List.length turns = List.length ms
          \/ List.length turns = (List.length ms + 1)%nat).
Proof.
  intros channel message linkRegex ms fuel Hchain Hfuel.
  destruct (getThreadMessages_chain_turns channel message linkRegex ms fuel
              Hchain Hfuel) as [turns [Hturns Hlen]].
  exists turns. split; [exact Hturns|]. split; [exact Hlen|].
  split; [intros H0; lia|]. split; [intros H1; lia|].
  intros Hlinks.
  pose proof (chain_quotes_once _ _ _ _ _ Hchain Hlinks). lia.
Qed.

Lemma single_quote_chain :
  Chain Examples.quotingChannel (Examples.replyTo "2") RegExp.linkRegex
    (Examples.replyTo "2") [Examples.quotedAnswer2].
Proof.
  eapply Chain_step; [vm_compute; reflexivity | vm_compute; reflexivity |].
  apply Chain_end. vm_compute; reflexivity.
Defined.

(** A reply to one quoting answer: one message fetched, two turns. *)
Lemma getThreadMessages_length_witness :
  exists turns,
    Async.completion
      (getThreadMessages 1 Examples.quotingChannel (Examples.replyTo "2")
         RegExp.linkRegex) = Normal turns
    /\ List.length turns = 2%nat.
Proof.
  destruct (getThreadMessages_length Examples.quotingChannel
              (Examples.replyTo "2") RegExp.linkRegex
              [Examples.quotedAnswer2] 1 single_quote_chain (le_n 1))
    as (turns & Hturns & Hlen & _).
  exists turns. split; [exact Hturns | exact Hlen].
Defined.

(** C4, as stated, fails: the second embed of this answer of the bot
    has a footer that starts with "Response to message by", and the loop
    records the answer alone, as a model turn, without the user turn the
    footer quotes.  Only [embeds[0]] is looked at. *)
Lemma getThreadMessages_quoted_turn_counterexample :
  User.id (Message.author Examples.lateQuote)
  = User.id (Client.user (Message.client (Examples.replyTo "1")))
  /\ carriesQuote Examples.lateQuote = true
  /\ recordTurns (Examples.replyTo "1") Examples.lateQuote []
     = [ {| Turn.role := model;
            Turn.parts := [ {| Part.text := Some (JS.lit "Here it is.") |} ] |} ]
  /\ recordTurns (Examples.replyTo "1") Examples.lateQuote []
     <> [ {| Turn.role := user;
             Turn.parts := [ {| Part.text := Some (JS.lit "where is it?") |} ] |};
          {| Turn.role := model;
             Turn.parts := [ {| Part.text := Some (JS.lit "Here it is.") |} ] |} ].
Proof.
  split; [vm_compute; reflexivity|].
  split; [vm_compute; reflexivity|].
  split; [vm_compute; reflexivity|].
  intros H; vm_compute in H; discriminate H.
Qed.

(** C4, amended. When the fetched message is the bot's and its first
    embed, [embeds[0]], has a footer that starts with "Response to
    message by", the loop puts two turns in front of the sequence, the
    user turn with the third line of the footer and then the model turn
    with the content of the message, and goes on from the fetched
    message with exactly these two turns added; they stay together, in
    this order, in whatever the walk returns.  The embeds after the
    first are not looked at: a message of the bot whose first embed has
    no such footer is recorded as one model turn with its content. *)
Theorem getThreadMessages_quoted_turn :
  forall channel message linkRegex fuel threadMessages currentMessage
         reference fetched embed0 embeds footer footerText,
    walkOn message linkRegex currentMessage = Some reference ->
    Channel.fetch channel (MessageReference.messageId reference) = inr fetched ->
    User.id (Message.author fetched)
    = User.id (Client.user (Message.client message)) ->
    Message.embeds fetched = embed0 :: embeds ->
    Embed.footer embed0 = Some footer ->
    EmbedFooter.text footer = Some footerText ->
    JS.startsWith (JS.lit "Response to message by") footerText = true ->
    let quoted :=
      {| Turn.role := user;
         Turn.parts :=
           [ {| Part.text := nth_error (JS.split 10%N footerText) 2 |} ] |} in
    let answer :=
      {| Turn.role := model;
         Turn.parts := [ {| Part.text := Some (Message.content fetched) |} ] |} in
    recordTurns message fetched threadMessages
    = quoted :: answer :: threadMessages
    /\ walk (S fuel) channel message linkRegex threadMessages currentMessage
       = Async.bind
           (Async.emit (MessagesFetch (MessageReference.messageId reference)))
           (fun _ => walk fuel channel message linkRegex
                       (quoted :: answer :: threadMessages) fetched)
    /\ (forall turns,
          Async.completion
            (walk (S fuel) channel message linkRegex threadMessages
               currentMessage) = Normal turns ->
          exists older, turns = older ++ quoted :: answer :: threadMessages)
    /\ (forall other first rest,
          User.id (Message.author other)
          = User.id (Client.user (Message.client message)) ->
          Message.embeds other = first :: rest ->
          (forall footer' text,
             Embed.footer first = Some footer' ->
             EmbedFooter.text footer' = Some text ->
             JS.startsWith (JS.lit "Response to message by") text = false) ->
          recordTurns message other threadMessages
          = {| Turn.role := model;
               Turn.parts :=
                 [ {| Part.text := Some (Message.content other) |} ] |}
            :: threadMessages).
Proof.
  intros channel message linkRegex fuel threadMessages currentMessage
         reference fetched embed0 embeds footer footerText
         Hgo Hfetch Hbot Hembeds Hfooter Htext Hprefix quoted answer.
  assert (Hrecord : recordTurns message fetched threadMessages
                    = quoted :: answer :: threadMessages).
  { unfold recordTurns, unshift. rewrite Hbot, eqb_refl, Hembeds, Hfooter, Htext.
    unfold responsePrefix. rewrite Hprefix. reflexivity. }
  assert (Hwalk : walk (S fuel) channel message linkRegex threadMessages
                    currentMessage
                  = Async.bind
                      (Async.emit
                         (MessagesFetch (MessageReference.messageId reference)))
                      (fun _ => walk fuel channel message linkRegex
                                  (quoted :: answer :: threadMessages) fetched)).
  { rewrite walk_unfold, Hgo, Hfetch. unfold Async.call, Async.emit, Async.bind.
    rewrite Hrecord. reflexivity. }
  split; [exact Hrecord|]. split; [exact Hwalk|]. split.
  - intros turns Hturns. rewrite Hwalk in Hturns.
    unfold Async.emit, Async.bind in Hturns.
    destruct (walk fuel channel message linkRegex
                (quoted :: answer :: threadMessages) fetched)
      as [tr c] eqn:E.
    cbn [Async.completion snd] in Hturns.
    apply (walk_prepends channel message linkRegex fuel
             (quoted :: answer :: threadMessages) fetched).
    rewrite E. exact Hturns.
  - intros other first rest Hother Hfirst Hplain.
    unfold recordTurns, unshift. rewrite Hother, eqb_refl, Hfirst.
    destruct (Embed.footer first) as [footer'|]; [|reflexivity].
    destruct (EmbedFooter.text footer') as [text|] eqn:Etext; [|reflexivity].
    unfold responsePrefix. rewrite (Hplain footer' text eq_refl Etext).
    reflexivity.
Qed.

(** The reply to the newer of the two quoting answers: its two turns
    are recorded, and the walk goes on to the older answer; an answer
    that quotes in its second embed is recorded as one turn. *)
Lemma getThreadMessages_quoted_turn_witness :
  recordTurns (Examples.replyTo "1") Examples.quotedAnswer1 []
  = [ {| Turn.role := user;
         Turn.parts := [ {| Part.text := Some (JS.lit "any pointer?") |} ] |};
      {| Turn.role := model;
         Turn.parts :=
           [ {| Part.text := Some (JS.lit "See https://example.org/a") |} ] |} ]
  /\ Async.completion
       (walk 2 Examples.quotingChannel (Examples.replyTo "1")
          RegExp.linkRegex [] (Examples.replyTo "1"))
     = Normal
         [ {| Turn.role := user;
              Turn.parts :=
                [ {| Part.text := Some (JS.lit "where is it documented?") |} ] |};
           {| Turn.role := model;
              Turn.parts :=
                [ {| Part.text :=
                       Some (JS.lit "It is documented at https://example.org/b") |} ] |};
           {| Turn.role := user;
              Turn.parts := [ {| Part.text := Some (JS.lit "any pointer?") |} ] |};
           {| Turn.role := model;
              Turn.parts :=
                [ {| Part.text := Some (JS.lit "See https://example.org/a") |} ] |} ]
  /\ recordTurns (Examples.replyTo "1") Examples.lateQuote []
     = [ {| Turn.role := model;
            Turn.parts := [ {| Part.text := Some (JS.lit "Here it is.") |} ] |} ].
Proof.
  pose proof (getThreadMessages_quoted_turn Examples.quotingChannel
                (Examples.replyTo "1") RegExp.linkRegex 1 []
                (Examples.replyTo "1")
                {| MessageReference.messageId := JS.lit "1" |}
                Examples.quotedAnswer1
                (Examples.footerEmbed
                   (JS.lit "Response to message by carol" ++ [JS.LF; JS.LF]
                    ++ JS.lit "any pointer?"))
                []
                {| EmbedFooter.text :=
                     Some (JS.lit "Response to message by carol"
                           ++ [JS.LF; JS.LF] ++ JS.lit "any pointer?") |}
                (JS.lit "Response to message by carol" ++ [JS.LF; JS.LF]
                 ++ JS.lit "any pointer?")
                ltac:(vm_compute; reflexivity) ltac:(vm_compute; reflexivity)
                eq_refl eq_refl eq_refl eq_refl
                ltac:(vm_compute; reflexivity))
    as (Hrecord & Hwalk & _ & Hplain).
  split; [|split].
  - rewrite Hrecord. vm_compute. reflexivity.
  - rewrite Hwalk. vm_compute. reflexivity.
  - rewrite (Hplain Examples.lateQuote {| Embed.footer := None |}
               [Examples.footerEmbed
                  (JS.lit "Response to message by dave" ++ [JS.LF; JS.LF]
                   ++ JS.lit "where is it?")]).
    + vm_compute. reflexivity.
    + vm_compute. reflexivity.
    + reflexivity.
    + intros footer' text H. discriminate H.
Defined.

(** *** The user mention taken off a user turn *)

(** [exec] returns the match at the first position the pattern matches. *)
Lemma exec_first (r : RegExp.regex) (s rest : jsstring) :
  (forall q', exists y, RegExp.match_at r (q', s) = Some y /\ snd y = rest) ->
  forall pre q,
    (forall p1 p2 q', pre = p1 ++ p2 -> p2 <> [] ->
                      RegExp.match_at r (q', p2 ++ s) = None) ->
    exists m,
      RegExp.exec r q (pre ++ s) = Some m
      /\ RegExp.before m = pre /\ snd (RegExp.after m) = rest.
Proof.
  intros Hat; induction pre as [|ch pre IH]; intros q Hbefore;
    rewrite exec_unfold.
  - destruct (Hat q) as (y & Hy & Hrest). cbn [app]. rewrite Hy.
    eexists; repeat split. exact Hrest.
  - rewrite (Hbefore [] (ch :: pre) q eq_refl) by discriminate.
    cbn [app].
    destruct (IH (Some ch)) as (m & -> & Hpre & Hrest).
    { intros p1 p2 q' -> Hne. apply (Hbefore (ch :: p1) p2 q'); auto. }
    eexists; repeat split; cbn [RegExp.before RegExp.after]; congruence.
Qed.

Lemma replace_first_userMention pre ds ws rest :
  ds <> [] -> forallb RegExp.digit ds = true ->
  forallb RegExp.space ws = true -> NoLeadingSpace rest ->
  (forall p1 p2, pre = p1 ++ p2 -> p2 <> [] ->
     ~ StartsWithUserMention
         (p2 ++ [60%N; 64%N] ++ ds ++ [62%N] ++ ws ++ rest)) ->
  RegExp.replace RegExp.userMentionRegex []
    (pre ++ [60%N; 64%N] ++ ds ++ [62%N] ++ ws ++ rest)
  = pre ++ rest.
Proof.
  intros Hne Hds Hws Hrest Hbefore. unfold RegExp.replace.
  destruct (exec_first RegExp.userMentionRegex
              ([60%N; 64%N] ++ ds ++ [62%N] ++ ws ++ rest) rest) with
    (pre := pre) (q := @None N) as (m & -> & Hpre & Hafter).
  - intros q'. destruct (userMention_hit q' ds ws rest Hne Hds Hws Hrest)
      as (q'' & Hhit).
    eexists; split; [exact Hhit | reflexivity].
  - intros p1 p2 q' Hp Hp2.
    destruct (RegExp.match_at RegExp.userMentionRegex
                (q', p2 ++ [60%N; 64%N] ++ ds ++ [62%N] ++ ws ++ rest))
      as [y|] eqn:E; [|reflexivity].
    exfalso. apply (Hbefore p1 p2 Hp Hp2).
    eapply userMention_inv; exact E.
  - rewrite Hpre, Hafter. reflexivity.
Qed.

Lemma replace_no_userMention content :
  (forall p1 p2, content = p1 ++ p2 -> ~ StartsWithUserMention p2) ->
  RegExp.replace RegExp.userMentionRegex [] content = content.
Proof.
  intros Hnone. unfold RegExp.replace.
  rewrite exec_none; [reflexivity|].
  intros p1 p2 q' Hp.
  destruct (RegExp.match_at RegExp.userMentionRegex (q', p2)) as [y|] eqn:E;
    [|reflexivity].
  exfalso. apply (Hnone p1 p2 Hp). eapply userMention_inv; exact E.
Qed.

(** C9, as stated, fails: the mention is taken out of the middle of
    "hi <@1> there", which does not begin with a mention and which the
    claim leaves unchanged. *)
Lemma recordTurns_strip_counterexample :
  User.id (Message.author Examples.aside)
  <> User.id (Client.user (Message.client (Examples.replyTo "1")))
  /\ recordTurns (Examples.replyTo "1") Examples.aside []
     = [Turn.make user (Some (JS.lit "hi there"))]
  /\ stripLeadingUserMention (Message.content Examples.aside)
     = JS.lit "hi <@1> there"
  /\ recordTurns (Examples.replyTo "1") Examples.aside []
     <> [Turn.make user
           (Some (stripLeadingUserMention (Message.content Examples.aside)))].
Proof.
  split; [intros H; vm_compute in H; discriminate H|].
  split; [vm_compute; reflexivity|].
  split; [vm_compute; reflexivity|].
  intros H; vm_compute in H; discriminate H.
Qed.

(** C9, amended. For a fetched message that is not the bot's, the loop
    records one user turn whose text is the content without its first
    user mention, wherever that mention is, and without the white space
    that follows it; a content without a user mention is recorded as it
    is. *)
Theorem recordTurns_strips_first_mention :
  forall message fetched threadMessages,
    User.id (Message.author fetched)
    <> User.id (Client.user (Message.client message)) ->
    recordTurns message fetched threadMessages
    = Turn.make user
        (Some (RegExp.replace RegExp.userMentionRegex []
                 (Message.content fetched)))
      :: threadMessages
    /\ (forall pre ds ws rest,
          Message.content fetched
          = pre ++ [60%N; 64%N] ++ ds ++ [62%N] ++ ws ++ rest ->
          ds <> [] -> forallb RegExp.digit ds = true ->
          forallb RegExp.space ws = true -> NoLeadingSpace rest ->
          (forall p1 p2, pre = p1 ++ p2 -> p2 <> [] ->
             ~ StartsWithUserMention
                 (p2 ++ [60%N; 64%N] ++ ds ++ [62%N] ++ ws ++ rest)) ->
          recordTurns message fetched threadMessages
          = Turn.make user (Some (pre ++ rest)) :: threadMessages)
    /\ ((forall p1 p2, Message.content fetched = p1 ++ p2 ->
                       ~ StartsWithUserMention p2) ->
        recordTurns message fetched threadMessages
        = Turn.make user (Some (Message.content fetched)) :: threadMessages).
Proof.
  intros message fetched threadMessages Hother.
  assert (Hrecord : recordTurns message fetched threadMessages
                    = Turn.make user
                        (Some (RegExp.replace RegExp.userMentionRegex []
                                 (Message.content fetched)))
                      :: threadMessages).
  { unfold recordTurns, unshift.
    apply eqb_neq in Hother. rewrite Hother. reflexivity. }
  split; [exact Hrecord|]. split.
  - intros pre ds ws rest Hcontent Hne Hds Hws Hrest Hbefore.
    rewrite Hrecord, Hcontent.
    rewrite (replace_first_userMention pre ds ws rest); auto.
  - intros Hnone. rewrite Hrecord, (replace_no_userMention _ Hnone).
    reflexivity.
Qed.

(** The question that mentions the bot first, and the message with the
    mention in the middle. *)
Lemma recordTurns_strips_first_mention_witness :
  recordTurns (Examples.replyTo "11") Examples.firstQuestion []
  = [Turn.make user (Some (JS.lit "what is a monad?"))]
  /\ recordTurns (Examples.replyTo "1") Examples.aside []
     = [Turn.make user (Some (JS.lit "hi there"))].
Proof.
  split.
  - refine (proj1 (proj2 (recordTurns_strips_first_mention
                            (Examples.replyTo "11") Examples.firstQuestion []
                            _))
              [] (JS.lit "999") [32%N] (JS.lit "what is a monad?")
              eq_refl _ eq_refl eq_refl eq_refl _).
    + intros H; vm_compute in H; discriminate H.
    + discriminate.
    + intros p1 p2 Hp Hne. destruct p1; destruct p2; try discriminate Hp.
      congruence.
  - refine (proj1 (proj2 (recordTurns_strips_first_mention
                            (Examples.replyTo "1") Examples.aside [] _))
              (JS.lit "hi ") (JS.lit "1") [32%N] (JS.lit "there")
              eq_refl _ eq_refl eq_refl eq_refl _).
    + intros H; vm_compute in H; discriminate H.
    + discriminate.
    + intros p1 p2 Hp Hne (ds & tail & _ & _ & Heq).
      destruct p2 as [|c p2]; [congruence|].
      assert (Hc : In c (JS.lit "hi ")) by (rewrite Hp; apply in_or_app; right; left; reflexivity).
      cbn [app] in Heq. inversion Heq; subst c.
      vm_compute in Hc. intuition discriminate.
Defined.

(** *** handleResponse: the mentions *)

Lemma bind_ret {A B} (a : A) (f : A -> Async.t B) :
  Async.bind (Async.ret a) f = f a.
Proof. unfold Async.bind, Async.ret. destruct (f a); reflexivity. Qed.

(** A mention-like token has one [<], its first code unit. *)
Lemma token_shape (tok : jsstring) :
  MentionToken tok -> exists body, tok = 60%N :: body /\ ~ In 60%N body.
Proof.
  intros (amp & ds & Hamp & _ & Hds & ->).
  exists (64%N :: amp ++ ds ++ [62%N]). split; [reflexivity|].
  intros [H | H]; [discriminate H|].
  apply in_app_or in H as [H | H].
  - destruct Hamp as [-> | ->]; [destruct H|].
    destruct H as [H | []]; discriminate H.
  - apply in_app_or in H as [H | [H | []]]; [|discriminate H].
    rewrite forallb_forall in Hds. apply Hds in H.
    vm_compute in H. discriminate H.
Qed.

Lemma token_matched (tok rest : jsstring) (q : option N) :
  MentionToken tok ->
  RegExp.match_at RegExp.mentionRegex (q, tok ++ rest) = Some (Some 62%N, rest).
Proof.
  intros (amp & ds & Hamp & Hne & Hds & ->).
  rewrite <- (mention_hit q amp ds rest Hamp Hne Hds).
  rewrite <- !app_assoc. reflexivity.
Qed.

(** Two tokens that begin at the same place are the same token. *)
Lemma token_unique (tok1 rest1 tok2 rest2 : jsstring) :
  MentionToken tok1 -> MentionToken tok2 ->
  tok1 ++ rest1 = tok2 ++ rest2 -> tok1 = tok2.
Proof.
  intros H1 H2 Heq.
  pose proof (token_matched tok1 rest1 None H1) as M1.
  pose proof (token_matched tok2 rest2 None H2) as M2.
  rewrite Heq, M2 in M1. inversion M1; subst.
  apply app_inv_tail in Heq. exact Heq.
Qed.

(** Two tokens do not overlap: a token that begins before another one
    ends before it. *)
Lemma token_apart (tok1 rest1 l tok post : jsstring) :
  MentionToken tok1 -> MentionToken tok -> l <> [] ->
  tok1 ++ rest1 = l ++ tok ++ post ->
  exists l', l = tok1 ++ l' /\ rest1 = l' ++ tok ++ post.
Proof.
  intros H1 H Hl Heq.
  apply token_shape in H1 as (body1 & -> & Hbody1).
  apply token_shape in H as (body & -> & _).
  destruct l as [|c l0]; [congruence|].
  cbn [app] in Heq. inversion Heq as [[Hc Hrest]]; subst c; clear Heq.
  apply app_eq_app in Hrest as (l2 & [[Hb Ht] | [Hl0 Hr]]).
  - destruct l2 as [|c2 l2].
    + rewrite app_nil_r in Hb. subst body1. cbn [app] in Ht.
      exists []. rewrite app_nil_r. split; [reflexivity | symmetry; exact Ht].
    + cbn [app] in Ht. inversion Ht; subst c2.
      exfalso. apply Hbody1. rewrite Hb. apply in_or_app. right. left.
      reflexivity.
  - exists l2. subst l0. split; [reflexivity | exact Hr].
Qed.

(** The scan reaches every token: if one of them is not the mention of
    the requester, the answer is that there is a mismatch. *)
Lemma scanMentions_finds message interaction id tok :
  requesterId message interaction = Async.ret id ->
  MentionToken tok -> tok <> mentionOf id ->
  forall n s q pre post fuel,
    (List.length s <= n)%nat -> (n < fuel)%nat ->
    s = pre ++ tok ++ post ->
    scanMentions fuel (q, s) message interaction = Async.ret true.
Proof.
  intros Hid Htok Hneq.
  induction n as [|n IH]; intros s q pre post fuel Hlen Hfuel Hs.
  - destruct (token_shape tok Htok) as (body & -> & _).
    subst s. rewrite !length_app in Hlen. simpl in Hlen. lia.
  - destruct fuel as [|fuel]; [lia|].
    cbn [scanMentions fst snd].
    destruct (exec_finds RegExp.mentionRegex (tok ++ post)) with
      (s1 := pre) (q := q) as (m & l & Hexec & Hpre).
    { intros q'. rewrite (token_matched tok post q' Htok). discriminate. }
    rewrite <- Hs in Hexec. rewrite Hexec.
    destruct (exec_inv RegExp.mentionRegex s q m Hexec)
      as (Hcut & (q' & Hat) & _).
    destruct (mention_inv _ _ _ Hat) as (tok1 & Htok1 & Hm).
    apply app_inv_tail in Hm.
    rewrite Hid, bind_ret.
    destruct (JS.eqb (RegExp.matched m) (mentionOf id)) eqn:E;
      [|reflexivity].
    cbn [negb]. apply eqb_eq in E.
    assert (Hrest : tok1 ++ snd (RegExp.after m) = l ++ tok ++ post).
    { rewrite Hs, Hpre, <- app_assoc in Hcut.
      apply app_inv_head in Hcut. rewrite <- Hm. symmetry. exact Hcut. }
    destruct l as [|c l].
    + exfalso. apply Hneq. rewrite <- E, Hm. symmetry.
      eapply token_unique; eauto.
    + destruct (token_apart tok1 (snd (RegExp.after m)) (c :: l) tok post
                  Htok1 Htok ltac:(discriminate) Hrest)
        as (l' & Hl & Hafter).
      destruct (RegExp.after m) as [q2 s2] eqn:Eafter. cbn [snd] in *.
      apply (IH s2 q2 l' post fuel); [|lia|exact Hafter].
      destruct (token_shape tok1 Htok1) as (body1 & Hb1 & _).
      rewrite Hcut, Hm, Hb1 in Hlen.
      rewrite !length_app in Hlen. simpl in Hlen. lia.
Qed.

Lemma requesterId_cases message interaction :
  (exists id, requesterId message interaction = Async.ret id)
  \/ requesterId message interaction = Async.throw TypeError.
Proof.
  unfold requesterId.
  destruct (JS.truthy _); [destruct (option_map _ message)|destruct interaction];
    eauto.
Qed.

(** The bound [handleResponse] gives the scan is never reached: every
    match is a token, which has at least one code unit. *)
Lemma scanMentions_settles message interaction :
  forall fuel q s,
    (List.length s < fuel)%nat ->
    Async.completion (scanMentions fuel (q, s) message interaction) <> Pending.
Proof.
  induction fuel as [|fuel IH]; intros q s Hfuel; [lia|].
  cbn [scanMentions fst snd].
  destruct (RegExp.exec RegExp.mentionRegex q s) as [m|] eqn:Hexec;
    [|discriminate].
  destruct (exec_inv RegExp.mentionRegex s q m Hexec)
    as (Hcut & (q' & Hat) & _).
  destruct (mention_inv _ _ _ Hat) as (tok & Htok & Hm).
  apply app_inv_tail in Hm.
  destruct (token_shape tok Htok) as (body & Hbody & _).
  destruct (requesterId_cases message interaction) as [(id & ->) | ->];
    [|discriminate].
  rewrite bind_ret. destruct (negb _); [discriminate|].
  destruct (RegExp.after m) as [q2 s2]. cbn [snd] in Hcut.
  apply IH. rewrite Hcut, Hm, Hbody, !length_app in Hfuel.
  simpl in Hfuel. lia.
Qed.

(** C6, as stated, fails: a response of 2006 code units whose last six
    are the mention of another user is cut before the mention, and the
    cut text is sent. *)
Lemma handleResponse_mention_counterexample :
  Contains Examples.latePingingText Examples.foreignMention
  /\ MentionToken Examples.foreignMention
  /\ Examples.foreignMention <> mentionOf (User.id Examples.alice)
  /\ handleResponse (Examples.chatAnswering Examples.latePingingText)
       (JS.lit "what is a monad?") None (Some Examples.question) None false
     = ([ChatSendMessage (JS.lit "what is a monad?");
         LoadingMsgEdit
           (Some (repeat 97%N 1936 ++ truncationNotice)) []],
        Normal tt).
Proof.
  split; [exists (repeat 97%N 2000), []; rewrite app_nil_r; reflexivity|].
  split; [exists [], (JS.lit "123"); repeat split;
          [left; reflexivity | discriminate]|].
  split; [intros H; vm_compute in H; discriminate H|].
  vm_compute. reflexivity.
Qed.

(** C6, amended. When the text [handleResponse] goes on with, the
    response as it is when it has at most 2000 code units and cut
    otherwise, contains a mention-like token that is not the mention of
    the requester, the loading message is edited once, to the mention
    notice, and the text is not sent. *)
Theorem handleResponse_rejects_foreign_mention :
  forall chat userQuestion interaction message messageDeleted
         isContextMenuCommand text id tok,
    Chat.sendMessage chat userQuestion = inr text ->
    requesterId message interaction = Async.ret id ->
    MentionToken tok -> tok <> mentionOf id ->
    (Contains (limitResponseText text) tok ->
     handleResponse chat userQuestion interaction message messageDeleted
       isContextMenuCommand
     = ([ChatSendMessage userQuestion; LoadingMsgEdit None [pingError]],
        Normal tt))
    /\ ((JS.length text <= 2000)%nat -> Contains text tok ->
        handleResponse chat userQuestion interaction message messageDeleted
          isContextMenuCommand
        = ([ChatSendMessage userQuestion; LoadingMsgEdit None [pingError]],
           Normal tt)).
Proof.
  intros chat userQuestion interaction message messageDeleted
         isContextMenuCommand text id tok Hsend Hid Htok Hneq.
  assert (Hreject : Contains (limitResponseText text) tok ->
            handleResponse chat userQuestion interaction message
              messageDeleted isContextMenuCommand
            = ([ChatSendMessage userQuestion; LoadingMsgEdit None [pingError]],
               Normal tt)).
  { intros (pre & post & Hs). unfold handleResponse. rewrite Hsend.
    cbn [Async.call Async.bind].
    rewrite (scanMentions_finds message interaction id tok Hid Htok Hneq
               (JS.length (limitResponseText text)) (limitResponseText text)
               None pre post (S (JS.length (limitResponseText text)))
               (le_n _) (Nat.lt_succ_diag_r _) Hs).
    reflexivity. }
  split; [exact Hreject|].
  intros Hlen Hin. apply Hreject.
  unfold limitResponseText.
  replace (2000 <? JS.length text)%nat with false
    by (symmetry; apply Nat.ltb_ge; exact Hlen).
  exact Hin.
Qed.

(** The response "ask <@123>" to the question of the user 456. *)
Lemma handleResponse_rejects_foreign_mention_witness :
  handleResponse (Examples.chatAnswering Examples.pingingText)
    (JS.lit "what is a monad?") None (Some Examples.question) None false
  = ([ChatSendMessage (JS.lit "what is a monad?");
      LoadingMsgEdit None [pingError]],
     Normal tt).
Proof.
  assert (Htok : MentionToken Examples.foreignMention).
  { exists [], (JS.lit "123").
    repeat split; [left; reflexivity | discriminate]. }
  assert (Hneq : Examples.foreignMention <> mentionOf (JS.lit "456"))
    by (intros E; vm_compute in E; discriminate E).
  destruct (handleResponse_rejects_foreign_mention
              (Examples.chatAnswering Examples.pingingText)
              (JS.lit "what is a monad?") None (Some Examples.question)
              None false Examples.pingingText (JS.lit "456")
              Examples.foreignMention eq_refl eq_refl Htok Hneq) as [_ H].
  apply H.
  - apply Nat.leb_le. vm_compute. reflexivity.
  - exists (JS.lit "ask "), []. reflexivity.
Defined.

(** *** fetchThreadMessages: a deleted message *)

Lemma bind_call_inr {A B} (ev : Event) (a : A) (f : A -> Async.t B) :
  Async.bind (Async.call ev (inr a)) f
  = (ev :: Async.trace (f a), Async.completion (f a)).
Proof.
  unfold Async.call, Async.bind, Async.trace, Async.completion.
  destruct (f a); reflexivity.
Qed.

(** The walk stops at the first fetch that fails, with the error of
    that fetch. *)
Lemma walk_failed_fetch channel message linkRegex id e :
  Channel.fetch channel id = inl e ->
  forall fuel threadMessages currentMessage,
    In (MessagesFetch id)
       (Async.trace
          (walk fuel channel message linkRegex threadMessages currentMessage)) ->
    exists before,
      walk fuel channel message linkRegex threadMessages currentMessage
      = (before ++ [MessagesFetch id], Throw e).
Proof.
  intros Hfetch; induction fuel as [|fuel IH]; intros threadMessages cur;
    rewrite walk_unfold;
    destruct (walkOn message linkRegex cur) as [reference|];
    try (intros []).
  destruct (Channel.fetch channel (MessageReference.messageId reference))
    as [e' | fetched] eqn:F.
  - intros [H | []]. inversion H; subst. rewrite Hfetch in F.
    inversion F; subst. exists []. reflexivity.
  - rewrite bind_call_inr. cbn [Async.trace fst].
    intros [H | H].
    + inversion H; subst. congruence.
    + apply IH in H as (before & ->).
      exists (MessagesFetch (MessageReference.messageId reference) :: before).
      reflexivity.
Qed.

Lemma tryBlock_failed_fetch scope fuel channel message threadMessages
    messageDeleted id e :
  Channel.fetch channel id = inl e ->
  In (MessagesFetch id)
     (Async.trace
        (tryBlock scope fuel channel message threadMessages messageDeleted)) ->
  exists before,
    tryBlock scope fuel channel message threadMessages messageDeleted
    = (before ++ [MessagesFetch id], Throw e).
Proof.
  intros Hfetch. unfold tryBlock.
  destruct (Message.reference message) as [reference|]; [|intros []].
  rewrite bind_ret.
  destruct (Channel.fetch channel (MessageReference.messageId reference))
    as [e' | original] eqn:F.
  - intros [H | []]. inversion H; subst. rewrite Hfetch in F.
    inversion F; subst. exists []. reflexivity.
  - rewrite bind_call_inr. cbn [Async.trace fst].
    intros [H | H]; [inversion H; subst; congruence|].
    revert H. unfold isInvalidOriginalMessage.
    destruct (Scope.message scope) as [inScope|]; [|intros []].
    rewrite bind_ret.
    match goal with
    | |- context [if ?b then Async.ret (Returned _, _) else _] => destruct b
    end; [intros []|].
    destruct (JS.eqb _ _); [|intros []].
    unfold getThreadMessages.
    destruct (walk fuel channel message RegExp.linkRegex [] message)
      as [tr c] eqn:W.
    intros H.
    assert (Hin : In (MessagesFetch id)
                    (Async.trace
                       (walk fuel channel message RegExp.linkRegex [] message))).
    { rewrite W. destruct c; cbn in H |- *; [rewrite app_nil_r in H| |];
        exact H. }
    apply (walk_failed_fetch channel message RegExp.linkRegex id e Hfetch)
      in Hin as (before & Hwalk).
    rewrite Hwalk in W. inversion W; subst.
    exists (MessagesFetch (MessageReference.messageId reference) :: before).
    reflexivity.
Qed.

(** C2. When a fetch that [fetchThreadMessages] makes, of the message
    replied to or of any message further up the chain, is answered by
    "Unknown Message", that fetch is the last call, and the function
    returns the content of the message as the question, an empty
    sequence of turns and the marker [threadDeleted]. *)
Theorem fetchThreadMessages_deleted :
  forall scope fuel channel key message id,
    In (MessagesFetch id)
       (Async.trace (fetchThreadMessages scope fuel channel key message)) ->
    Channel.fetch channel id = inl (DiscordAPIError UnknownMessage) ->
    exists before,
      fetchThreadMessages scope fuel channel key message
      = (before ++ [MessagesFetch id],
         Normal
           (Some {| ThreadMessages.userQuestion :=
                      Some (Message.content message);
                    ThreadMessages.threadMessages := Some [];
                    ThreadMessages.messageDeleted := Some threadDeleted |})).
Proof.
  intros scope fuel channel key message id Hin Hfetch.
  unfold fetchThreadMessages, checkGeminiApiKey in *.
  destruct (keyRejected key).
  - destruct Hin as [H | []]. discriminate H.
  - rewrite bind_ret in *.
    assert (Htry : In (MessagesFetch id)
                     (Async.trace (tryBlock scope fuel channel message [] None))).
    { destruct (tryBlock scope fuel channel message [] None)
        as [tr [[[result | turns] marker] | e |]];
        cbn in Hin |- *; try exact Hin;
        try (rewrite !app_nil_r in Hin; exact Hin).
      destruct e as [code | | |]; cbn in Hin;
        try (destruct (N.eqb code UnknownMessage); cbn in Hin);
        rewrite ?app_nil_r in Hin; exact Hin. }
    apply (tryBlock_failed_fetch scope fuel channel message [] None id
             (DiscordAPIError UnknownMessage) Hfetch) in Htry
      as (before & ->).
    exists before. cbn. rewrite !app_nil_r. reflexivity.
Qed.

(** The message replied to is gone; and, were the message being handled
    in scope, the answer is fetched and put down as a turn, the question
    above it is gone, and the turn is dropped. *)
Lemma fetchThreadMessages_deleted_witness :
  (Async.trace
     (fetchThreadMessages fileScope 8 Examples.emptyChannel
        (Some (JS.lit "abcd")) (Examples.replyTo "1"))
   = [MessagesFetch (JS.lit "1")]
   /\ Async.completion
        (fetchThreadMessages fileScope 8 Examples.emptyChannel
           (Some (JS.lit "abcd")) (Examples.replyTo "1"))
      = Normal
          (Some {| ThreadMessages.userQuestion := Some (JS.lit "and then?");
                   ThreadMessages.threadMessages := Some [];
                   ThreadMessages.messageDeleted := Some threadDeleted |}))
  /\ (Async.trace
        (fetchThreadMessages (Examples.scopeOf (Examples.replyTo "11")) 8
           Examples.brokenChannel (Some (JS.lit "abcd"))
           (Examples.replyTo "11"))
      = [MessagesFetch (JS.lit "11"); MessagesFetch (JS.lit "11");
         MessagesFetch (JS.lit "10")]
      /\ Async.completion
           (fetchThreadMessages (Examples.scopeOf (Examples.replyTo "11")) 8
              Examples.brokenChannel (Some (JS.lit "abcd"))
              (Examples.replyTo "11"))
         = Normal
             (Some {| ThreadMessages.userQuestion := Some (JS.lit "and then?");
                      ThreadMessages.threadMessages := Some [];
                      ThreadMessages.messageDeleted := Some threadDeleted |})).
Proof.
  split; (split; [vm_compute; reflexivity|]).
  - destruct (fetchThreadMessages_deleted fileScope 8 Examples.emptyChannel
                (Some (JS.lit "abcd")) (Examples.replyTo "1") (JS.lit "1"))
      as (before & H).
    + vm_compute. left. reflexivity.
    + reflexivity.
    + rewrite H. reflexivity.
  - destruct (fetchThreadMessages_deleted
                (Examples.scopeOf (Examples.replyTo "11")) 8
                Examples.brokenChannel (Some (JS.lit "abcd"))
                (Examples.replyTo "11") (JS.lit "10"))
      as (before & H).
    + vm_compute. right. right. left. reflexivity.
    + reflexivity.
    + rewrite H. reflexivity.
Defined.

(** *** fetchThreadMessages: the validity gate *)

(** C3. In the file as it is written, [isInvalidOriginalMessage] reads
    a [message] that no scope of the file binds: once the key is
    accepted and the message replied to is fetched, the gate throws a
    [ReferenceError], which [fetchThreadMessages] throws on; no result
    is returned, whoever the author of the fetched message is. *)
Theorem fetchThreadMessages_gate_throws :
  forall fuel channel key message reference originalMessage,
    keyRejected key = false ->
    Message.reference message = Some reference ->
    Channel.fetch channel (MessageReference.messageId reference)
    = inr originalMessage ->
    fetchThreadMessages fileScope fuel channel key message
    = ([MessagesFetch (MessageReference.messageId reference)],
       Throw (ReferenceError "message")).
Proof.
  intros fuel channel key message reference originalMessage Hkey Href Hfetch.
  unfold fetchThreadMessages, checkGeminiApiKey, tryBlock.
  rewrite Hkey, Href, !bind_ret, Hfetch. reflexivity.
Qed.

(** A reply to a message of another user, without embed or link. *)
Lemma fetchThreadMessages_gate_throws_witness :
  User.id (Message.author Examples.strangerMessage)
  <> User.id (Client.user (Message.client (Examples.replyTo "5")))
  /\ fetchThreadMessages fileScope 8 Examples.strangerChannel
       (Some (JS.lit "abcd")) (Examples.replyTo "5")
     = ([MessagesFetch (JS.lit "5")], Throw (ReferenceError "message")).
Proof.
  split; [intros H; vm_compute in H; discriminate H|].
  apply (fetchThreadMessages_gate_throws 8 Examples.strangerChannel
           (Some (JS.lit "abcd")) (Examples.replyTo "5")
           {| MessageReference.messageId := JS.lit "5" |}
           Examples.strangerMessage); reflexivity.
Defined.

(** With the message being handled in scope the gate does what the
    claim says: a message of another author is invalid, nothing more is
    fetched, and the marker is [threadDeleted]. *)
Lemma gate_with_message_in_scope fuel channel key message reference
    originalMessage :
  keyRejected key = false ->
  Message.reference message = Some reference ->
  Channel.fetch channel (MessageReference.messageId reference)
  = inr originalMessage ->
  User.id (Message.author originalMessage)
  <> User.id (Client.user (Message.client message)) ->
  fetchThreadMessages (Examples.scopeOf message) fuel channel key message
  = ([MessagesFetch (MessageReference.messageId reference)],
     Normal
       (Some {| ThreadMessages.userQuestion := None;
                ThreadMessages.threadMessages := None;
                ThreadMessages.messageDeleted := Some threadDeleted |})).
Proof.
  intros Hkey Href Hfetch Hother.
  unfold fetchThreadMessages, checkGeminiApiKey, tryBlock,
    isInvalidOriginalMessage.
  rewrite Hkey, Href, !bind_ret, Hfetch.
  cbn [Examples.scopeOf Scope.message Async.call Async.bind Async.ret].
  apply eqb_neq in Hother. rewrite Hother. reflexivity.
Qed.

(* ================================================================== *)
(** ** Further properties of [utils.js] *)
(* ================================================================== *)

(** *** handleResponse: the length of what is sent *)

(** X1. The text [handleResponse] goes on with has the length of the
    response when that is at most 2000, and 2007 code units otherwise:
    the 1936 kept and the 71 of the notice, seven more than the limit
    the notice names. *)
Theorem limitResponseText_length :
  forall text,
    ((JS.length text <= 2000)%nat ->
     JS.length (limitResponseText text) = JS.length text)
    /\ ((2000 < JS.length text)%nat ->
        JS.length (limitResponseText text) = 2007%nat)
    /\ (JS.length (limitResponseText text) <= 2007)%nat.
Proof.
  intros text. unfold limitResponseText, JS.substring0, JS.length.
  assert (Hnotice : List.length truncationNotice = 71%nat) by reflexivity.
  destruct (2000 <? List.length text)%nat eqn:E.
  - apply Nat.ltb_lt in E.
    rewrite length_app, Hnotice, firstn_length_le by lia.
    repeat split; intros; try lia; reflexivity.
  - apply Nat.ltb_ge in E. repeat split; intros; lia.
Qed.

(** A response of 2500 code units. *)
Lemma limitResponseText_length_witness :
  JS.length (limitResponseText Examples.longText) = 2007%nat.
Proof.
  apply (proj1 (proj2 (limitResponseText_length Examples.longText))).
  apply Nat.ltb_lt. vm_compute. reflexivity.
Defined.

(** *** handleResponse: the calls it makes *)

Lemma createInfoEmbed_settles isContextMenuCommand message messageDeleted :
  Async.completion
    (createInfoEmbed isContextMenuCommand message messageDeleted) <> Pending.
Proof.
  unfold createInfoEmbed.
  destruct isContextMenuCommand; [destruct message|]; discriminate.
Qed.

(** X2. Whatever the model answers, [handleResponse] settles, its first
    call is the question sent to the model, and after it the loading
    message is edited at most once and nothing else is called; when the
    model call fails, the error is thrown on and the loading message is
    not edited. *)
Theorem handleResponse_settles :
  forall chat userQuestion interaction message messageDeleted
         isContextMenuCommand,
    Async.completion
      (handleResponse chat userQuestion interaction message messageDeleted
         isContextMenuCommand) <> Pending
    /\ (exists edits,
          Async.trace
            (handleResponse chat userQuestion interaction message
               messageDeleted isContextMenuCommand)
          = ChatSendMessage userQuestion :: edits
          /\ (List.length edits <= 1)%nat
          /\ forallb isEdit edits = true)
    /\ (forall e,
          Chat.sendMessage chat userQuestion = inl e ->
          handleResponse chat userQuestion interaction message messageDeleted
            isContextMenuCommand
          = ([ChatSendMessage userQuestion], Throw e)).
Proof.
  intros chat userQuestion interaction message messageDeleted
         isContextMenuCommand.
  destruct (Chat.sendMessage chat userQuestion) as [e | text] eqn:Hsend.
  - assert (H : handleResponse chat userQuestion interaction message
                  messageDeleted isContextMenuCommand
                = ([ChatSendMessage userQuestion], Throw e))
      by (unfold handleResponse; rewrite Hsend; reflexivity).
    rewrite H. split; [discriminate|]. split.
    + exists []. repeat split. simpl. lia.
    + intros e' He'. inversion He'. reflexivity.
  - split; [|split; [|discriminate]].
    + unfold handleResponse. rewrite Hsend. cbn [Async.call Async.bind].
      pose proof (scanMentions_settles message interaction
                    (S (JS.length (limitResponseText text))) None
                    (limitResponseText text) (Nat.lt_succ_diag_r _)) as Hscan.
      destruct (scanMentions _ _ message interaction) as [tr [[|]| |]];
        cbn [Async.completion snd] in Hscan; try discriminate;
        [|congruence].
      pose proof (createInfoEmbed_settles isContextMenuCommand message
                    messageDeleted) as Hinfo.
      destruct (createInfoEmbed _ _ _) as [tr' [infoEmbed| |]];
        cbn [Async.completion snd] in Hinfo; try discriminate.
      congruence.
    + destruct (handleResponse_calls chat userQuestion interaction message
                  messageDeleted isContextMenuCommand text Hsend)
        as [H | [H | (infoEmbed & H)]]; rewrite H.
      * exists []. repeat split. simpl. lia.
      * exists [LoadingMsgEdit None [pingError]]. repeat split. simpl. lia.
      * exists [LoadingMsgEdit (Some (limitResponseText text)) infoEmbed].
        repeat split. simpl. lia.
Qed.

(** The model call fails. *)
Lemma handleResponse_settles_witness :
  handleResponse (Cases.failingChat OtherError) (JS.lit "what is a monad?")
    None (Some Examples.question) None false
  = ([ChatSendMessage (JS.lit "what is a monad?")], Throw OtherError).
Proof.
  apply (proj2 (proj2 (handleResponse_settles
                         (Cases.failingChat OtherError)
                         (JS.lit "what is a monad?") None
                         (Some Examples.question) None false))).
  reflexivity.
Defined.

(** *** handleResponse: a response that mentions only the requester *)

Lemma contains_suffix (s before rest tok : jsstring) :
  s = before ++ rest -> Contains rest tok -> Contains s tok.
Proof.
  intros -> (pre & post & ->). exists (before ++ pre), post.
  rewrite <- app_assoc. reflexivity.
Qed.

(** When every token of a text is the mention of the requester, the
    scan finds no mismatch. *)
Lemma scanMentions_passes message interaction :
  forall fuel q s,
    (List.length s < fuel)%nat ->
    (forall tok, MentionToken tok -> Contains s tok ->
       exists id, requesterId message interaction = Async.ret id
                  /\ tok = mentionOf id) ->
    scanMentions fuel (q, s) message interaction = Async.ret false.
Proof.
  induction fuel as [|fuel IH]; intros q s Hfuel Hown; [lia|].
  cbn [scanMentions fst snd].
  destruct (RegExp.exec RegExp.mentionRegex q s) as [m|] eqn:Hexec;
    [|reflexivity].
  destruct (exec_inv RegExp.mentionRegex s q m Hexec)
    as (Hcut & (q' & Hat) & _).
  destruct (mention_inv _ _ _ Hat) as (tok & Htok & Hm).
  apply app_inv_tail in Hm.
  destruct (Hown tok Htok) as (id & Hid & Hmention).
  { exists (RegExp.before m), (snd (RegExp.after m)).
    rewrite <- Hm. exact Hcut. }
  rewrite Hid, bind_ret, Hm, Hmention, eqb_refl. cbn [negb].
  destruct (token_shape tok Htok) as (body & Hbody & _).
  destruct (RegExp.after m) as [q2 s2]. cbn [snd] in Hcut.
  apply IH.
  - rewrite Hcut, Hm, Hbody, !length_app in Hfuel. simpl in Hfuel. lia.
  - intros tok' Htok' Hin. apply Hown; [exact Htok'|].
    apply (contains_suffix s (RegExp.before m ++ RegExp.matched m) s2 tok');
      [rewrite <- app_assoc; exact Hcut | exact Hin].
Qed.

(** The notice has neither [<] nor [>]. *)
Lemma truncationNotice_plain : ~ In 62%N truncationNotice.
Proof. vm_compute. intuition discriminate. Qed.

(** Cutting a response brings no token in: a token of the cut text is
    a token of the response. *)
Lemma limitResponseText_tokens (text tok : jsstring) :
  MentionToken tok -> Contains (limitResponseText text) tok ->
  Contains text tok.
Proof.
  intros Htok. unfold limitResponseText, JS.substring0.
  destruct (2000 <? JS.length text)%nat; [|trivial].
  intros (pre & post & Heq).
  assert (Hkept : Contains (firstn 1936 text) tok ->
                  Contains text tok).
  { intros H. apply (contains_suffix text [] text tok eq_refl).
    destruct H as (a & b & Hab). exists a, (b ++ skipn 1936 text).
    rewrite <- (firstn_skipn 1936 text) at 1. rewrite Hab, <- !app_assoc.
    reflexivity. }
  replace (pre ++ tok ++ post) with ((pre ++ tok) ++ post) in Heq
    by (rewrite <- app_assoc; reflexivity).
  apply app_eq_app in Heq as (l & [[Hkeep Hpost] | [Hpt Hnotice]]).
  - apply Hkept. exists pre, l. rewrite Hkeep, <- app_assoc. reflexivity.
  - destruct l as [|c l _] using rev_ind.
    + apply Hkept. exists pre, []. rewrite app_nil_r in *. symmetry.
      exact Hpt.
    + exfalso. apply truncationNotice_plain.
      destruct Htok as (amp & ds & _ & _ & _ & ->).
      rewrite !app_assoc in Hpt.
      apply app_inj_tail in Hpt as [_ <-].
      rewrite Hnotice. apply in_or_app. left. apply in_or_app. right.
      left. reflexivity.
Qed.

(** X3. A response all of whose mention-like tokens are the mention of
    the requester is sent: the loading message is edited once, to the
    text of lines 96 to 98 with the info embeds.  With C6 this makes the
    notice the answer exactly when a token of the text that is kept is
    not the requester's. *)
Theorem handleResponse_sends_own_mentions :
  forall chat userQuestion interaction message messageDeleted
         isContextMenuCommand text infoEmbed,
    Chat.sendMessage chat userQuestion = inr text ->
    (forall tok, MentionToken tok -> Contains text tok ->
       exists id, requesterId message interaction = Async.ret id
                  /\ tok = mentionOf id) ->
    createInfoEmbed isContextMenuCommand message messageDeleted
    = Async.ret infoEmbed ->
    handleResponse chat userQuestion interaction message messageDeleted
      isContextMenuCommand
    = ([ChatSendMessage userQuestion;
        LoadingMsgEdit (Some (limitResponseText text)) infoEmbed],
       Normal tt).
Proof.
  intros chat userQuestion interaction message messageDeleted
         isContextMenuCommand text infoEmbed Hsend Hown Hinfo.
  unfold handleResponse. rewrite Hsend. cbn [Async.call Async.bind].
  rewrite (scanMentions_passes message interaction
             (S (JS.length (limitResponseText text))) None
             (limitResponseText text) (Nat.lt_succ_diag_r _)).
  - rewrite Hinfo. reflexivity.
  - intros tok Htok Hin. apply Hown; [exact Htok|].
    apply limitResponseText_tokens; assumption.
Qed.

(** The answer to [alice] that begins with her own mention. *)
Lemma handleResponse_sends_own_mentions_witness :
  handleResponse (Examples.chatAnswering Cases.politeText)
    (JS.lit "what is a monad?") None (Some Examples.question) None false
  = ([ChatSendMessage (JS.lit "what is a monad?");
      LoadingMsgEdit (Some Cases.politeText) []],
     Normal tt).
Proof.
  apply (handleResponse_sends_own_mentions
           (Examples.chatAnswering Cases.politeText)
           (JS.lit "what is a monad?") None (Some Examples.question) None
           false Cases.politeText [] eq_refl); [|reflexivity].
  intros tok Htok (pre & post & Heq).
  exists (JS.lit "456"). split; [reflexivity|].
  assert (Hmine : MentionToken (mentionOf (JS.lit "456"))).
  { exists [], (JS.lit "456").
    repeat split; [left; reflexivity | discriminate]. }
  destruct (token_shape tok Htok) as (body & Hbody & _).
  destruct pre as [|c pre].
  - apply (token_unique tok post (mentionOf (JS.lit "456"))
             (JS.lit " a monad is a monoid") Htok Hmine).
    symmetry. exact Heq.
  - exfalso. subst tok.
    assert (Hin : In 60%N (pre ++ 60%N :: body ++ post))
      by (apply in_or_app; right; left; reflexivity).
    change Cases.politeText
      with (60%N :: JS.lit "@456> a monad is a monoid") in Heq.
    cbn [app] in Heq. injection Heq as _ Heq. rewrite <- Heq in Hin.
    vm_compute in Hin. intuition discriminate.
Defined.

(** *** createInfoEmbed *)

Lemma createInfoEmbed_context message messageDeleted :
  exists rest,
    createInfoEmbed true (Some message) messageDeleted
    = Async.ret
        (EmbedBuilder.setColor Blue
           (EmbedBuilder.setFooter (contextFooter message) EmbedBuilder.new)
         :: rest)
    /\ rest = match messageDeleted with
              | Some threadDeleted => [deletedThread]
              | Some slashCommand => [deletedSlashCommand]
              | None => []
              end.
Proof.
  eexists; split; [|reflexivity].
  unfold createInfoEmbed, contextFooter.
  destruct messageDeleted as [[|]|]; reflexivity.
Qed.




Lemma startsWith_app (p s : jsstring) : JS.startsWith p (p ++ s) = true.
Proof.
  induction p as [|c p IH]; [destruct s; reflexivity|].
  cbn [app JS.startsWith]. rewrite N.eqb_refl, IH. reflexivity.
Qed.

Lemma startsWith_app_l (p a s : jsstring) :
  JS.startsWith p a = true -> JS.startsWith p (a ++ s) = true.
Proof.
  revert a; induction p as [|c p IH]; intros a H;
    [destruct (a ++ s); reflexivity|].
  destruct a as [|x a]; [discriminate H|].
  cbn [app JS.startsWith] in *.
  apply andb_true_iff in H as [-> H]. rewrite (IH a H). reflexivity.
Qed.

Lemma contextFooter_prefix message :
  JS.startsWith responsePrefix (contextFooter message) = true.
Proof.
  unfold contextFooter, JS.substring0.
  match goal with
  | |- context [(2030 <? ?n)%nat] => destruct (2030 <? n)%nat
  end.
  - apply startsWith_app_l. rewrite firstn_app.
    apply startsWith_app_l.
    vm_compute. reflexivity.
  - change (JS.lit "Response to message by ")
      with (responsePrefix ++ [32%N]).
    rewrite <- app_assoc. apply startsWith_app.
Qed.

(** X5. Every footer [createInfoEmbed] writes begins with one of the
    three prefixes [fetchThreadMessages] hands to the gate, and the
    footer of a context-menu request begins with the prefix the loop of
    [getThreadMessages] looks for.  So, wherever [message] is bound to
    a message of this client, the gate does not call invalid a message
    of the bot that is received with such an embed first, whatever its
    content. *)
Theorem createInfoEmbed_recognized :
  forall isContextMenuCommand message messageDeleted infoEmbed,
    createInfoEmbed isContextMenuCommand message messageDeleted
    = Async.ret infoEmbed ->
    Forall
      (fun embed =>
         exists footerText,
           EmbedBuilder.footer embed = Some footerText
           /\ recognized footerText = true
           /\ forall scope inScope originalMessage embeds linkRegex,
                Scope.message scope = Some inScope ->
                User.id (Message.author originalMessage)
                = User.id (Client.user (Message.client inScope)) ->
                Message.embeds originalMessage
                = receivedFooter footerText :: embeds ->
                isInvalidOriginalMessage scope originalMessage linkRegex
                  startStrings
                = Async.ret false)
      infoEmbed
    /\ (isContextMenuCommand = true ->
        exists footerText rest,
          infoEmbed
          = EmbedBuilder.setColor Blue
              (EmbedBuilder.setFooter footerText EmbedBuilder.new) :: rest
          /\ JS.startsWith (JS.lit "Response to message by") footerText = true).
Proof.
  intros isContextMenuCommand message messageDeleted infoEmbed Hrun.
  assert (Hgate : forall footerText,
            recognized footerText = true ->
            forall scope inScope originalMessage embeds linkRegex,
              Scope.message scope = Some inScope ->
              User.id (Message.author originalMessage)
              = User.id (Client.user (Message.client inScope)) ->
              Message.embeds originalMessage
              = receivedFooter footerText :: embeds ->
              isInvalidOriginalMessage scope originalMessage linkRegex
                startStrings
              = Async.ret false).
  { intros footerText Hrec scope inScope originalMessage embeds linkRegex
           Hscope Hbot Hembeds.
    unfold isInvalidOriginalMessage.
    rewrite Hscope, Hbot, eqb_refl, Hembeds.
    cbn [receivedFooter Embed.footer EmbedFooter.text negb orb].
    destruct footerText as [|c footerText]; [discriminate Hrec|].
    unfold recognized in Hrec. rewrite Hrec. reflexivity. }
  assert (Hone : forall footerText colour,
            recognized footerText = true ->
            exists footerText',
              EmbedBuilder.footer
                (EmbedBuilder.setColor colour
                   (EmbedBuilder.setFooter footerText EmbedBuilder.new))
              = Some footerText'
              /\ recognized footerText' = true
              /\ forall scope inScope originalMessage embeds linkRegex,
                   Scope.message scope = Some inScope ->
                   User.id (Message.author originalMessage)
                   = User.id (Client.user (Message.client inScope)) ->
                   Message.embeds originalMessage
                   = receivedFooter footerText' :: embeds ->
                   isInvalidOriginalMessage scope originalMessage linkRegex
                     startStrings
                   = Async.ret false).
  { intros footerText colour Hrec. exists footerText.
    split; [reflexivity|]. split; [exact Hrec|]. apply Hgate; exact Hrec. }
  assert (Hdeleted :
            Forall
              (fun embed =>
                 exists footerText,
                   EmbedBuilder.footer embed = Some footerText
                   /\ recognized footerText = true
                   /\ forall scope inScope originalMessage embeds linkRegex,
                        Scope.message scope = Some inScope ->
                        User.id (Message.author originalMessage)
                        = User.id (Client.user (Message.client inScope)) ->
                        Message.embeds originalMessage
                        = receivedFooter footerText :: embeds ->
                        isInvalidOriginalMessage scope originalMessage
                          linkRegex startStrings
                        = Async.ret false)
              match messageDeleted with
              | Some threadDeleted => [deletedThread]
              | Some slashCommand => [deletedSlashCommand]
              | None => []
              end).
  { destruct messageDeleted as [[|]|]; repeat constructor;
      apply Hone; vm_compute; reflexivity. }
  assert (Hcontext : forall m, recognized (contextFooter m) = true).
  { intros m. unfold recognized, startStrings. cbn [existsb].
    pose proof (contextFooter_prefix m) as H. unfold responsePrefix in H.
    rewrite H. reflexivity. }
  destruct isContextMenuCommand.
  - destruct message as [m|]; [|discriminate Hrun].
    destruct (createInfoEmbed_context m messageDeleted)
      as (rest & Hrun' & Hrest).
    rewrite Hrun' in Hrun. inversion Hrun; subst infoEmbed. split.
    + constructor; [apply Hone; apply Hcontext|].
      rewrite Hrest. exact Hdeleted.
    + intros _. exists (contextFooter m), rest. split; [reflexivity|].
      apply contextFooter_prefix.
  - split; [|discriminate].
    assert (Hrun' : createInfoEmbed false message messageDeleted
                    = Async.ret
                        match messageDeleted with
                        | Some threadDeleted => [deletedThread]
                        | Some slashCommand => [deletedSlashCommand]
                        | None => []
                        end)
      by (destruct messageDeleted as [[|]|]; reflexivity).
    rewrite Hrun' in Hrun. inversion Hrun; subst infoEmbed. exact Hdeleted.
Qed.

(** The embed for a context-menu request on the message of two lines. *)
Lemma createInfoEmbed_recognized_witness :
  exists footerText rest,
    createInfoEmbed true (Some Cases.twoLines) None
    = Async.ret
        (EmbedBuilder.setColor Blue
           (EmbedBuilder.setFooter footerText EmbedBuilder.new) :: rest)
    /\ JS.startsWith (JS.lit "Response to message by") footerText = true.
Proof.
  destruct (createInfoEmbed_recognized true (Some Cases.twoLines) None
              [EmbedBuilder.setColor Blue
                 (EmbedBuilder.setFooter (contextFooter Cases.twoLines)
                    EmbedBuilder.new)]
              eq_refl) as [_ H].
  destruct (H eq_refl) as (footerText & rest & Heq & Hprefix).
  exists footerText, rest. split; [|exact Hprefix].
  rewrite <- Heq. reflexivity.
Defined.

(** *** The quoted message, from createInfoEmbed to getThreadMessages *)

Lemma split_first (sep : N) (line more : jsstring) :
  ~ In sep line ->
  more = [] \/ (exists more', more = sep :: more') ->
  exists pieces, JS.split sep (line ++ more) = line :: pieces.
Proof.
  induction line as [|c line IH]; intros Hline Hmore.
  - destruct Hmore as [-> | (more' & ->)]; cbn [app JS.split].
    + exists []. reflexivity.
    + rewrite N.eqb_refl. eexists. reflexivity.
  - cbn [app JS.split].
    destruct (N.eqb_spec c sep) as [-> | _];
      [exfalso; apply Hline; left; reflexivity|].
    destruct IH as (pieces & ->); [|exact Hmore|].
    + intros H. apply Hline. right. exact H.
    + eexists. reflexivity.
Qed.

Lemma split_cons (sep : N) (a b : jsstring) :
  ~ In sep a -> JS.split sep (a ++ sep :: b) = a :: JS.split sep b.
Proof.
  intros Ha.
  destruct (split_first sep a (sep :: b) Ha) as (pieces & H);
    [right; eexists; reflexivity|].
  revert pieces H. induction a as [|c a IH]; intros pieces H.
  - cbn [app JS.split] in *. rewrite N.eqb_refl in *. reflexivity.
  - cbn [app JS.split] in *.
    destruct (N.eqb_spec c sep) as [-> | _];
      [exfalso; apply Ha; left; reflexivity|].
    destruct (JS.split sep (a ++ sep :: b)) as [|piece rest] eqn:E.
    + exfalso.
      destruct (split_first sep a (sep :: b)) as (pieces' & H');
        [intros Hin; apply Ha; right; exact Hin
        |right; eexists; reflexivity|].
      rewrite E in H'. discriminate H'.
    + assert (Hpiece : piece :: rest = a :: JS.split sep b).
      { apply (IH (fun Hin => Ha (or_intror Hin)) rest).
        destruct (split_first sep a (sep :: b)) as (pieces' & H');
          [intros Hin; apply Ha; right; exact Hin
          |right; eexists; reflexivity|].
        rewrite E in H'. inversion H'; subst. reflexivity. }
      inversion Hpiece; subst. reflexivity.
Qed.

(** X6. What the bot writes in the footer of the answer to a
    context-menu request comes back as the quoted user turn only up to
    the first line break: when the tag of the author has no line break
    and the footer was not cut, a message of the bot received with that
    footer gives the user turn with the first line of the message that
    was answered, and then the model turn. *)
Theorem quoted_message_first_line :
  forall message answered fetched embeds threadMessages line more,
    ~ In JS.LF (User.tag (Message.author answered)) ->
    Message.content answered = line ++ more ->
    ~ In JS.LF line ->
    more = [] \/ (exists more', more = JS.LF :: more') ->
    (JS.length
       (JS.lit "Response to message by "
        ++ User.tag (Message.author answered)
        ++ [JS.LF; JS.LF] ++ Message.content answered) <= 2030)%nat ->
    User.id (Message.author fetched)
    = User.id (Client.user (Message.client message)) ->
    Message.embeds fetched
    = receivedFooter (contextFooter answered) :: embeds ->
    recordTurns message fetched threadMessages
    = Turn.make user (Some line)
      :: Turn.make model (Some (Message.content fetched))
      :: threadMessages.
Proof.
  intros message answered fetched embeds threadMessages line more
         Htag Hcontent Hline Hmore Hlen Hbot Hembeds.
  unfold recordTurns, unshift.
  rewrite Hbot, eqb_refl, Hembeds.
  cbn [receivedFooter Embed.footer EmbedFooter.text].
  rewrite contextFooter_prefix.
  replace (JS.index (JS.split JS.LF (contextFooter answered)) 2)
    with (Some line); [reflexivity|].
  unfold contextFooter.
  apply Nat.ltb_ge in Hlen. rewrite Hlen. rewrite Hcontent.
  replace (JS.lit "Response to message by "
           ++ User.tag (Message.author answered)
           ++ [JS.LF; JS.LF] ++ line ++ more)
    with ((JS.lit "Response to message by "
           ++ User.tag (Message.author answered))
          ++ JS.LF :: ([] ++ JS.LF :: (line ++ more)))
    by (rewrite <- app_assoc; reflexivity).
  rewrite split_cons.
  - rewrite split_cons by (intros []).
    destruct (split_first JS.LF line more Hline Hmore) as (pieces & ->).
    reflexivity.
  - intros Hin. apply in_app_or in Hin as [Hin | Hin]; [|auto].
    vm_compute in Hin. intuition discriminate.
Qed.

(** The answer to the message of two lines: only "what is a functor?"
    comes back. *)
Lemma quoted_message_first_line_witness :
  recordTurns (Examples.replyTo "1") Cases.answerToTwoLines []
  = [ Turn.make user (Some (JS.lit "what is a functor?"));
      Turn.make model (Some (JS.lit "A functor maps.")) ].
Proof.
  apply (quoted_message_first_line (Examples.replyTo "1") Cases.twoLines
           Cases.answerToTwoLines [] [] (JS.lit "what is a functor?")
           (JS.LF :: JS.lit "and a monad?")).
  - vm_compute. intuition discriminate.
  - reflexivity.
  - vm_compute. intuition discriminate.
  - right. eexists. reflexivity.
  - apply Nat.leb_le. vm_compute. reflexivity.
  - reflexivity.
  - reflexivity.
Defined.

(** *** handleGeminiError: the notice of an error without an entry *)

(** X7. For an error whose message is none of the keys of the table,
    [handleGeminiError] edits the loading message once, to the notice of
    the entry [default], unless the message is the name of a member
    every object inherits ([constructor], [toString], ...): that member
    is found instead of the entry, it has no title, [setTitle] throws,
    and the loading message is not edited at all. *)
Theorem handleGeminiError_unmatched :
  forall err : GeminiError.t,
    ~ In (GeminiError.message err) (map fst errorResponses) ->
    (~ In (GeminiError.message err) JS.objectPrototype ->
     handleGeminiError err
     = ([LoadingMsgEdit None [notice defaultResponse]], Normal None))
    /\ (In (GeminiError.message err) JS.objectPrototype ->
        handleGeminiError err = ([], Throw OtherError)).
Proof.
  intros err Hnot. split.
  - apply handleGeminiError_default. apply ownProperty_none. exact Hnot.
  - apply handleGeminiError_inherited.
Qed.

(** An error no entry is written for, and an error named [constructor]. *)
Lemma handleGeminiError_unmatched_witness :
  handleGeminiError Examples.unknownError
  = ([LoadingMsgEdit None [notice defaultResponse]], Normal None)
  /\ handleGeminiError Examples.constructorError = ([], Throw OtherError).
Proof.
  split.
  - apply (handleGeminiError_unmatched Examples.unknownError).
    + vm_compute. intuition discriminate.
    + vm_compute. intuition discriminate.
  - apply (handleGeminiError_unmatched Examples.constructorError).
    + vm_compute. intuition discriminate.
    + vm_compute. left. reflexivity.
Defined.

(** *** checkGeminiApiKey: who is replied to *)

(** X8. [checkGeminiApiKey] replies exactly when the key is absent or
    has fewer than four code units, once, with the invalid-key notice:
    through the interaction whenever one is given, the message then not
    being looked at, and through the message otherwise; with neither it
    throws a [TypeError]. *)
Theorem checkGeminiApiKey_replies :
  forall key interaction message,
    ((forall k, key = Some k -> (4 <= JS.length k)%nat) ->
     key <> None ->
     checkGeminiApiKey key interaction message = ([], Normal None))
    /\ (key = None \/ (exists k, key = Some k /\ (JS.length k < 4)%nat) ->
        match interaction, message with
        | Some _, _ =>
            checkGeminiApiKey key interaction message
            = ([InteractionReply [invalidApiEmbed]], Normal (Some sent))
        | None, Some _ =>
            checkGeminiApiKey key interaction message
            = ([MessageReply [invalidApiEmbed]], Normal (Some sent))
        | None, None =>
            checkGeminiApiKey key interaction message = ([], Throw TypeError)
        end).
Proof.
  intros key interaction message. unfold checkGeminiApiKey. split.
  - intros Hlong Hsome. destruct key as [k|]; [|congruence].
    rewrite (keyRejected_long k (Hlong k eq_refl)). reflexivity.
  - intros Hshort. rewrite (keyRejected_short key Hshort).
    destruct interaction; [reflexivity|]. destruct message; reflexivity.
Qed.

(** The key [abc] in a slash command, where there is no message. *)
Lemma checkGeminiApiKey_replies_witness :
  checkGeminiApiKey (Some (JS.lit "abc"))
    (Some {| Interaction.user := Examples.alice |}) None
  = ([InteractionReply [invalidApiEmbed]], Normal (Some sent)).
Proof.
  apply (proj2 (checkGeminiApiKey_replies (Some (JS.lit "abc"))
                  (Some {| Interaction.user := Examples.alice |}) None)).
  right. exists (JS.lit "abc"). split; [reflexivity|].
  apply Nat.ltb_lt. vm_compute. reflexivity.
Defined.

(** *** fetchThreadMessages: the other ways it ends *)

Lemma fetchThreadMessages_accepted scope fuel channel key message :
  keyRejected key = false ->
  fetchThreadMessages scope fuel channel key message
  = Async.bind
      (Async.tryCatch (tryBlock scope fuel channel message [] None) catchBlock)
      (fun outcome =>
         match outcome with
         | (Returned result, _) => Async.ret (Some result)
         | (Completed threadMessages, messageDeleted) =>
             Async.ret
               (Some {| ThreadMessages.userQuestion :=
                          Some (Message.content message);
                        ThreadMessages.threadMessages := Some threadMessages;
                        ThreadMessages.messageDeleted := messageDeleted |})
         end).
Proof.
  intros Hkey. unfold fetchThreadMessages, checkGeminiApiKey.
  rewrite Hkey, bind_ret. reflexivity.
Qed.

Lemma catchBlock_trace (error : Error) :
  Async.trace (catchBlock error) = [].
Proof.
  destruct error as [code| | |]; try reflexivity.
  cbn [catchBlock]. destruct (N.eqb code UnknownMessage); reflexivity.
Qed.

(** Once the key is accepted, the calls of [fetchThreadMessages] are
    the calls of its [try] block. *)
Lemma fetchThreadMessages_trace scope fuel channel key message :
  keyRejected key = false ->
  Async.trace (fetchThreadMessages scope fuel channel key message)
  = Async.trace (tryBlock scope fuel channel message [] None).
Proof.
  intros Hkey. rewrite (fetchThreadMessages_accepted _ _ _ _ _ Hkey).
  destruct (tryBlock scope fuel channel message [] None)
    as [tr [[[result | turns] marker] | e |]];
    cbn [Async.tryCatch Async.bind Async.ret Async.trace fst];
    rewrite ?app_nil_r; try reflexivity.
  pose proof (catchBlock_trace e) as He.
  destruct (catchBlock e) as [tr' [[[result | turns] marker] | e' |]];
    cbn [Async.trace fst] in He; subst tr';
    cbn [Async.bind Async.ret Async.trace fst];
    rewrite ?app_nil_r; reflexivity.
Qed.

(** X9. A fetch that fails with anything but "Unknown Message", a
    missing permission or a failure of the network, ends
    [fetchThreadMessages] there and then: the error is thrown on and no
    result is returned, whether the fetch was of the message replied to
    or of a message further up the chain. *)
Theorem fetchThreadMessages_rethrows :
  forall scope fuel channel key message id e,
    In (MessagesFetch id)
       (Async.trace (fetchThreadMessages scope fuel channel key message)) ->
    Channel.fetch channel id = inl e ->
    e <> DiscordAPIError UnknownMessage ->
    exists before,
      fetchThreadMessages scope fuel channel key message
      = (before ++ [MessagesFetch id], Throw e).
Proof.
  intros scope fuel channel key message id e Hin Hfetch Hother.
  destruct (keyRejected key) eqn:Hkey.
  - unfold fetchThreadMessages, checkGeminiApiKey in Hin.
    rewrite Hkey in Hin. destruct Hin as [H | []]. discriminate H.
  - rewrite (fetchThreadMessages_trace _ _ _ _ _ Hkey) in Hin.
    apply (tryBlock_failed_fetch scope fuel channel message [] None id e
             Hfetch) in Hin as (before & Htry).
    exists before. rewrite (fetchThreadMessages_accepted _ _ _ _ _ Hkey), Htry.
    assert (Hcatch : catchBlock e = Async.throw e).
    { destruct e as [code| | |]; try reflexivity.
      cbn [catchBlock]. destruct (N.eqb_spec code UnknownMessage) as [-> | _];
        [congruence | reflexivity]. }
    cbn [Async.tryCatch]. rewrite Hcatch.
    cbn [Async.throw Async.bind]. rewrite app_nil_r. reflexivity.
Qed.

(** The bot may not read the channel of the reply. *)
Lemma fetchThreadMessages_rethrows_witness :
  Async.trace
    (fetchThreadMessages fileScope 8 Cases.closedChannel
       (Some (JS.lit "abcd")) (Examples.replyTo "1"))
  = [MessagesFetch (JS.lit "1")]
  /\ Async.completion
       (fetchThreadMessages fileScope 8 Cases.closedChannel
          (Some (JS.lit "abcd")) (Examples.replyTo "1"))
     = Throw (DiscordAPIError Cases.MissingAccess).
Proof.
  split; [vm_compute; reflexivity|].
  destruct (fetchThreadMessages_rethrows fileScope 8 Cases.closedChannel
              (Some (JS.lit "abcd")) (Examples.replyTo "1") (JS.lit "1")
              (DiscordAPIError Cases.MissingAccess))
    as (before & H).
  - vm_compute. left. reflexivity.
  - reflexivity.
  - discriminate.
  - rewrite H. reflexivity.
Defined.

(** X10. In the file as it is written, [fetchThreadMessages] makes at
    most one call and never returns a turn: whenever it returns a
    result, the result is the content of the message as the question,
    an empty history and the marker [threadDeleted].  It settles, and
    the bound on the walk makes no difference, since the walk is never
    begun. *)
Theorem fetchThreadMessages_as_written :
  forall fuel channel key message,
    (List.length
       (Async.trace (fetchThreadMessages fileScope fuel channel key message))
     <= 1)%nat
    /\ Async.completion (fetchThreadMessages fileScope fuel channel key message)
       <> Pending
    /\ (forall result,
          Async.completion
            (fetchThreadMessages fileScope fuel channel key message)
          = Normal (Some result) ->
          result
          = {| ThreadMessages.userQuestion := Some (Message.content message);
               ThreadMessages.threadMessages := Some [];
               ThreadMessages.messageDeleted := Some threadDeleted |})
    /\ (forall fuel',
          fetchThreadMessages fileScope fuel' channel key message
          = fetchThreadMessages fileScope fuel channel key message).
Proof.
  intros fuel channel key message.
  assert (Hrun : forall n,
            fetchThreadMessages fileScope n channel key message
            = if keyRejected key then
                ([MessageReply [invalidApiEmbed]], Normal None)
              else
                match Message.reference message with
                | None => ([], Throw TypeError)
                | Some reference =>
                    match Channel.fetch channel
                            (MessageReference.messageId reference) with
                    | inr _ =>
                        ([MessagesFetch (MessageReference.messageId reference)],
                         Throw (ReferenceError "message"))
                    | inl e =>
                        if match e with
                           | DiscordAPIError code => N.eqb code UnknownMessage
                           | _ => false
                           end
                        then
                          ([MessagesFetch
                              (MessageReference.messageId reference)],
                           Normal
                             (Some {| ThreadMessages.userQuestion :=
                                        Some (Message.content message);
                                      ThreadMessages.threadMessages := Some [];
                                      ThreadMessages.messageDeleted :=
                                        Some threadDeleted |}))
                        else
                          ([MessagesFetch
                              (MessageReference.messageId reference)],
                           Throw e)
                    end
                end).
  { intros n. destruct (keyRejected key) eqn:Hkey.
    - unfold fetchThreadMessages, checkGeminiApiKey. rewrite Hkey.
      reflexivity.
    - rewrite (fetchThreadMessages_accepted _ _ _ _ _ Hkey).
      unfold tryBlock.
      destruct (Message.reference message) as [reference|]; [|reflexivity].
      rewrite bind_ret.
      destruct (Channel.fetch channel (MessageReference.messageId reference))
        as [e | originalMessage]; [|reflexivity].
      destruct e as [code| | |]; try reflexivity.
      cbn [Async.call Async.bind Async.tryCatch catchBlock].
      destruct (N.eqb code UnknownMessage); reflexivity. }
  rewrite Hrun.
  split; [|split; [|split]].
  - destruct (keyRejected key); [simpl; lia|].
    destruct (Message.reference message); [|simpl; lia].
    destruct (Channel.fetch channel _) as [e|]; [|simpl; lia].
    destruct (match e with DiscordAPIError code => _ | _ => false end);
      simpl; lia.
  - destruct (keyRejected key); [discriminate|].
    destruct (Message.reference message); [|discriminate].
    destruct (Channel.fetch channel _) as [e|]; [|discriminate].
    destruct (match e with DiscordAPIError code => _ | _ => false end);
      discriminate.
  - intros result.
    destruct (keyRejected key); [discriminate|].
    destruct (Message.reference message); [|discriminate].
    destruct (Channel.fetch channel _) as [e|]; [|discriminate].
    destruct (match e with DiscordAPIError code => _ | _ => false end);
      [|discriminate].
    intros H. inversion H. reflexivity.
  - intros fuel'. apply Hrun.
Qed.

(** X11. A message that is not a reply, once the key is accepted: the
    reference that is read is not there, and [fetchThreadMessages]
    throws a [TypeError] without a call and without a result. *)
Theorem fetchThreadMessages_no_reference :
  forall scope fuel channel key message,
    keyRejected key = false ->
    Message.reference message = None ->
    fetchThreadMessages scope fuel channel key message
    = ([], Throw TypeError).
Proof.
  intros scope fuel channel key message Hkey Href.
  rewrite (fetchThreadMessages_accepted _ _ _ _ _ Hkey).
  unfold tryBlock. rewrite Href. reflexivity.
Qed.

(** The question of [alice], which is no reply. *)
Lemma fetchThreadMessages_no_reference_witness :
  fetchThreadMessages fileScope 8 Examples.threadChannel
    (Some (JS.lit "abcd")) Examples.question
  = ([], Throw TypeError).
Proof.
  apply (fetchThreadMessages_no_reference fileScope 8 Examples.threadChannel
           (Some (JS.lit "abcd")) Examples.question); reflexivity.
Defined.

(** A reply to the plain answer of the thread of three, in the file as
    it is written: the answer is fetched, the gate throws, and no bound
    on the walk changes that. *)
Lemma fetchThreadMessages_as_written_witness :
  fetchThreadMessages fileScope 0 Examples.threadChannel
    (Some (JS.lit "abcd")) (Examples.replyTo "11")
  = fetchThreadMessages fileScope 8 Examples.threadChannel
      (Some (JS.lit "abcd")) (Examples.replyTo "11")
  /\ (List.length
        (Async.trace
           (fetchThreadMessages fileScope 8 Examples.threadChannel
              (Some (JS.lit "abcd")) (Examples.replyTo "11"))) <= 1)%nat.
Proof.
  destruct (fetchThreadMessages_as_written 8 Examples.threadChannel
              (Some (JS.lit "abcd")) (Examples.replyTo "11"))
    as (Hcalls & _ & _ & Hfuel).
  split; [apply Hfuel | exact Hcalls].
Defined.

(** *** getThreadMessages: the fetches it makes *)

Lemma walkOn_reference message linkRegex currentMessage reference :
  walkOn message linkRegex currentMessage = Some reference ->
  Message.reference currentMessage
  = Some {| MessageReference.messageId :=
              MessageReference.messageId reference |}.
Proof.
  unfold walkOn. destruct (Message.reference currentMessage) as [r|];
    [|discriminate].
  destruct (negb _); [|discriminate].
  intros H; inversion H; subst. destruct reference; reflexivity.
Qed.

Lemma walk_fetches channel message linkRegex currentMessage ms :
  Chain channel message linkRegex currentMessage ms ->
  forall fuel threadMessages,
    (List.length ms <= fuel)%nat ->
    exists ids,
      Async.trace
        (walk fuel channel message linkRegex threadMessages currentMessage)
      = map MessagesFetch ids
      /\ map (Channel.fetch channel) ids = map inr ms
      /\ Forall2
           (fun cursor id =>
              Message.reference cursor
              = Some {| MessageReference.messageId := id |})
           (removelast (currentMessage :: ms)) ids.
Proof.
  induction 1 as [cur Hstop | cur reference fetched older Hgo Hfetch _ IH];
    intros fuel threadMessages Hfuel; rewrite walk_unfold.
  - rewrite Hstop. exists []. repeat split. constructor.
  - rewrite Hgo. destruct fuel as [|fuel]; [simpl in Hfuel; lia|].
    rewrite Hfetch, bind_call_inr. cbn [Async.trace fst].
    destruct (IH fuel (recordTurns message fetched threadMessages))
      as (ids & Htrace & Hids & Hrefs); [simpl in Hfuel; lia|].
    exists (MessageReference.messageId reference :: ids).
    cbn [map]. rewrite Htrace, Hids, Hfetch. repeat split.
    change (removelast (cur :: fetched :: older))
      with (cur :: removelast (fetched :: older)).
    constructor; [|exact Hrefs].
    eapply walkOn_reference; exact Hgo.
Qed.

(** X12. Along a reply chain [getThreadMessages] makes one fetch for
    each message of the chain and no other call: the first fetch asks
    for the message the handled message refers to, each later one for
    the message the one fetched before refers to, and the answers are
    the messages of the chain. *)
Theorem getThreadMessages_fetches :
  forall channel message linkRegex ms fuel,
    Chain channel message linkRegex message ms ->
    (List.length ms <= fuel)%nat ->
    exists ids,
      Async.trace (getThreadMessages fuel channel message linkRegex)
      = map MessagesFetch ids
      /\ List.length ids = List.length ms
      /\ map (Channel.fetch channel) ids = map inr ms
      /\ Forall2
           (fun cursor id =>
              Message.reference cursor
              = Some {| MessageReference.messageId := id |})
           (removelast (message :: ms)) ids.
Proof.
  intros channel message linkRegex ms fuel Hchain Hfuel.
  destruct (walk_fetches channel message linkRegex message ms Hchain fuel []
              Hfuel) as (ids & Htrace & Hids & Hrefs).
  exists ids. repeat split; try assumption.
  rewrite <- (length_map (Channel.fetch channel) ids), Hids.
  apply length_map.
Qed.

(** The thread of three: the answer is fetched, then the question. *)
Lemma getThreadMessages_fetches_witness :
  exists ids,
    Async.trace
      (getThreadMessages 2 Examples.threadChannel (Examples.replyTo "11")
         RegExp.linkRegex)
    = map MessagesFetch ids
    /\ List.length ids = 2%nat.
Proof.
  destruct (getThreadMessages_fetches Examples.threadChannel
              (Examples.replyTo "11") RegExp.linkRegex
              [Examples.firstAnswer; Examples.firstQuestion] 2
              thread_chain (le_n 2)) as (ids & Htrace & Hlen & _).
  exists ids. split; [exact Htrace | exact Hlen].
Defined.

(** X13. The walk does not go past an answer of the bot that has an
    embed and no link in its content: when the message replied to is
    such an answer, it is the only message fetched and its turns are
    the whole history, whatever the answer itself refers to. *)
Theorem getThreadMessages_stops_at_annotated_answer :
  forall fuel channel message linkRegex reference answer embed0 embeds,
    walkOn message linkRegex message = Some reference ->
    Channel.fetch channel (MessageReference.messageId reference) = inr answer ->
    User.id (Message.author answer)
    = User.id (Client.user (Message.client message)) ->
    Message.embeds answer = embed0 :: embeds ->
    RegExp.test linkRegex (Message.content answer) = false ->
    getThreadMessages (S fuel) channel message linkRegex
    = ([MessagesFetch (MessageReference.messageId reference)],
       Normal (turnsOf message answer)).
Proof.
  intros fuel channel message linkRegex reference answer embed0 embeds
         Hgo Hfetch Hbot Hembeds Hlink.
  unfold getThreadMessages. rewrite walk_unfold, Hgo, Hfetch, bind_call_inr.
  rewrite walk_unfold.
  assert (Hstop : walkOn message linkRegex answer = None).
  { unfold walkOn. destruct (Message.reference answer); [|reflexivity].
    rewrite Hbot, eqb_refl, Hembeds, Hlink. reflexivity. }
  rewrite Hstop. reflexivity.
Qed.

(** The reply to the annotated answer: the question above the answer is
    there, and is not fetched. *)
Lemma getThreadMessages_stops_at_annotated_answer_witness :
  getThreadMessages 8 Cases.annotatedChannel (Examples.replyTo "12")
    RegExp.linkRegex
  = ([MessagesFetch (JS.lit "12")],
     Normal [Turn.make model (Some (JS.lit "It depends."))]).
Proof.
  apply (getThreadMessages_stops_at_annotated_answer 7
           Cases.annotatedChannel (Examples.replyTo "12") RegExp.linkRegex
           {| MessageReference.messageId := JS.lit "12" |}
           Cases.annotatedAnswer
           (receivedFooter
              (JS.lit "A message has been deleted/is not accessible in the reply thread, Taurus does not know the past reply thread history."))
           []); vm_compute; reflexivity.
Defined.

(** *** The link pattern *)

Lemma compile_chr_inv (a : ascii) (r : RegExp.regex) q s c z :
  RegExp.compile (RegExp.Seq (RegExp.chr a) r) (q, s) c = Some z ->
  exists s', s = N_of_ascii a :: s'
             /\ RegExp.compile r (Some (N_of_ascii a), s') c = Some z.
Proof.
  rewrite compile_seq. unfold RegExp.chr. rewrite compile_class.
  destruct s as [|ch s]; [discriminate|].
  destruct (N.eqb_spec (N_of_ascii a) ch) as [<- | _]; [|discriminate].
  intros H. exists s. split; [reflexivity | exact H].
Qed.

(** Where [linkRegex] matches, the text reads [http://] or [https://]. *)
Lemma link_inv q s y :
  RegExp.match_at RegExp.linkRegex (q, s) = Some y ->
  exists rest, s = JS.lit "http://" ++ rest \/ s = JS.lit "https://" ++ rest.
Proof.
  unfold RegExp.match_at, RegExp.linkRegex. intros H.
  apply compile_chr_inv in H as (s1 & -> & H).
  apply compile_chr_inv in H as (s2 & -> & H).
  apply compile_chr_inv in H as (s3 & -> & H).
  apply compile_chr_inv in H as (s4 & -> & H).
  rewrite compile_seq in H. unfold RegExp.chr at 1 in H.
  rewrite compile_opt_class in H.
  assert (Hcolon : forall r q' t,
            RegExp.compile
              (RegExp.Seq (RegExp.chr ":")
                 (RegExp.Seq (RegExp.chr "/") (RegExp.Seq (RegExp.chr "/") r)))
              (q', t) (fun y => Some y) = Some y ->
            exists rest, t = JS.lit "://" ++ rest).
  { intros r q' t Ht.
    apply compile_chr_inv in Ht as (t1 & -> & Ht).
    apply compile_chr_inv in Ht as (t2 & -> & Ht).
    apply compile_chr_inv in Ht as (t3 & -> & Ht).
    exists t3. reflexivity. }
  destruct s4 as [|c s5].
  - apply Hcolon in H as (rest & Hrest). discriminate Hrest.
  - destruct (N.eqb_spec (N_of_ascii "s") c) as [<- | _].
    + match type of H with
      | match ?e with _ => _ end = _ => destruct e as [z|] eqn:E
      end.
      * inversion H; subst z. apply Hcolon in E as (rest & ->).
        exists rest. right. reflexivity.
      * apply Hcolon in H as (rest & Hrest). discriminate Hrest.
    + apply Hcolon in H as (rest & ->). exists rest. left. reflexivity.
Qed.

(** X14. The pattern [fetchThreadMessages] tests contents with finds a
    link only in a text that reads [http://] or [https://] somewhere.
    So an answer of the bot with an embed and neither of the two in its
    content always stops the walk of [getThreadMessages]. *)
Theorem linkRegex_needs_scheme :
  forall content,
    (RegExp.test RegExp.linkRegex content = true ->
     Contains content (JS.lit "http://")
     \/ Contains content (JS.lit "https://"))
    /\ (~ Contains content (JS.lit "http://") ->
        ~ Contains content (JS.lit "https://") ->
        forall message currentMessage embed0 embeds,
          Message.content currentMessage = content ->
          User.id (Message.author currentMessage)
          = User.id (Client.user (Message.client message)) ->
          Message.embeds currentMessage = embed0 :: embeds ->
          walkOn message RegExp.linkRegex currentMessage = None).
Proof.
  intros content.
  assert (Hscheme : RegExp.test RegExp.linkRegex content = true ->
            Contains content (JS.lit "http://")
            \/ Contains content (JS.lit "https://")).
  { unfold RegExp.test.
    destruct (RegExp.exec RegExp.linkRegex None content) as [m|] eqn:Hexec;
      [|discriminate].
    intros _.
    destruct (exec_inv RegExp.linkRegex content None m Hexec)
      as (Hcut & (q' & Hat) & _).
    apply link_inv in Hat as (rest & [Hrest | Hrest]);
      rewrite Hrest in Hcut; [left | right];
      exists (RegExp.before m), rest; exact Hcut. }
  split; [exact Hscheme|].
  intros Hhttp Hhttps message currentMessage embed0 embeds Hcontent Hbot
         Hembeds.
  unfold walkOn. destruct (Message.reference currentMessage); [|reflexivity].
  rewrite Hbot, eqb_refl, Hembeds, Hcontent.
  destruct (RegExp.test RegExp.linkRegex content) eqn:Htest; [|reflexivity].
  destruct (Hscheme eq_refl); contradiction.
Qed.

(** The content of the newer of the two quoting answers has a link. *)
Lemma linkRegex_needs_scheme_witness :
  Contains (JS.lit "See https://example.org/a") (JS.lit "http://")
  \/ Contains (JS.lit "See https://example.org/a") (JS.lit "https://").
Proof.
  apply (proj1 (linkRegex_needs_scheme (JS.lit "See https://example.org/a"))).
  vm_compute. reflexivity.
Defined.

(** *** The names of the registered functions *)

Lemma replaceString_unfold (pattern by_ s : jsstring) :
  Bot.replaceString pattern by_ s
  = if JS.startsWith pattern s then by_ ++ skipn (List.length pattern) s
    else
      match s with
      | [] => []
      | c :: s' => c :: Bot.replaceString pattern by_ s'
      end.
Proof. destruct s; reflexivity. Qed.

Lemma replaceString_first (pattern by_ post : jsstring) :
  forall pre,
    (forall a b, pre = a ++ b -> b <> [] ->
       JS.startsWith pattern (b ++ pattern ++ post) = false) ->
    Bot.replaceString pattern by_ (pre ++ pattern ++ post)
    = pre ++ by_ ++ post.
Proof.
  induction pre as [|c pre IH]; intros Hfirst; rewrite replaceString_unfold.
  - cbn [app]. rewrite startsWith_app.
    rewrite skipn_app, skipn_all, Nat.sub_diag. reflexivity.
  - rewrite (Hfirst [] (c :: pre) eq_refl) by discriminate.
    cbn [app]. rewrite IH; [reflexivity|].
    intros a b -> Hb. apply (Hfirst (c :: a) b); [reflexivity | exact Hb].
Qed.

Lemma endsWith_app (p a : jsstring) : Bot.endsWith p (a ++ p) = true.
Proof.
  unfold Bot.endsWith. rewrite rev_app_distr. apply startsWith_app.
Qed.

(** X15. The functions of [./functions] are stored under the name of
    their file with the first [.js] in it taken out, and only files
    whose name ends with [.js] are stored.  The name is the file name
    without its extension when no [.js] occurs before the extension;
    when one does, it is that one that goes and the extension stays. *)
Theorem functionNames_first_js :
  forall functionFiles,
    (forall name file,
       In (name, file) (Bot.functionNames functionFiles) ->
       In file functionFiles /\ Bot.endsWith (JS.lit ".js") file = true)
    /\ (forall pre post,
          In (pre ++ JS.lit ".js" ++ post) functionFiles ->
          Bot.endsWith (JS.lit ".js") (pre ++ JS.lit ".js" ++ post) = true ->
          (forall a b, pre = a ++ b -> b <> [] ->
             JS.startsWith (JS.lit ".js") (b ++ JS.lit ".js" ++ post) = false) ->
          In (pre ++ post, pre ++ JS.lit ".js" ++ post)
             (Bot.functionNames functionFiles))
    /\ (forall base,
          In (base ++ JS.lit ".js") functionFiles ->
          ~ In 46%N base ->
          In (base, base ++ JS.lit ".js") (Bot.functionNames functionFiles)).
Proof.
  intros functionFiles.
  assert (Hstored : forall pre post,
            In (pre ++ JS.lit ".js" ++ post) functionFiles ->
            Bot.endsWith (JS.lit ".js") (pre ++ JS.lit ".js" ++ post) = true ->
            (forall a b, pre = a ++ b -> b <> [] ->
               JS.startsWith (JS.lit ".js") (b ++ JS.lit ".js" ++ post)
               = false) ->
            In (pre ++ post, pre ++ JS.lit ".js" ++ post)
               (Bot.functionNames functionFiles)).
  { intros pre post Hin Hends Hfirst. unfold Bot.functionNames.
    apply in_map_iff. exists (pre ++ JS.lit ".js" ++ post). split.
    - rewrite (replaceString_first (JS.lit ".js") [] post pre Hfirst).
      reflexivity.
    - apply filter_In. split; assumption. }
  split; [|split; [exact Hstored|]].
  - intros name file Hin. unfold Bot.functionNames in Hin.
    apply in_map_iff in Hin as (file' & Heq & Hin).
    inversion Heq; subst. apply filter_In in Hin. exact Hin.
  - intros base Hin Hdot.
    pose proof (Hstored base [] ) as H. rewrite !app_nil_r in H.
    apply H; [exact Hin | apply endsWith_app |].
    intros a [|c b] Hbase Hb; [congruence|].
    change (JS.startsWith (JS.lit ".js") ((c :: b) ++ JS.lit ".js"))
      with (N.eqb 46 c && JS.startsWith (JS.lit "js") (b ++ JS.lit ".js")).
    destruct (N.eqb_spec 46 c) as [<- | _]; [|reflexivity].
    exfalso. apply Hdot. rewrite Hbase. apply in_or_app. right. left.
    reflexivity.
Qed.

(** The directory of three entries: [status.js] is stored as [status],
    [config.json.js] as [configon.js], and [README.md] is not stored. *)
Lemma functionNames_first_js_witness :
  In (JS.lit "status", JS.lit "status.js")
     (Bot.functionNames Cases.functionFiles)
  /\ In (JS.lit "configon.js", JS.lit "config.json.js")
       (Bot.functionNames Cases.functionFiles)
  /\ Bot.functionNames Cases.functionFiles
     = [ (JS.lit "status", JS.lit "status.js");
         (JS.lit "configon.js", JS.lit "config.json.js") ].
Proof.
  destruct (functionNames_first_js Cases.functionFiles)
    as (_ & Hfirst & Hplain).
  split; [|split].
  - apply (Hplain (JS.lit "status")).
    + left. reflexivity.
    + vm_compute. intuition discriminate.
  - apply (Hfirst (JS.lit "config") (JS.lit "on.js")).
    + right. right. left. reflexivity.
    + vm_compute. reflexivity.
    + intros a [|c b] Hpre Hb; [congruence|].
      change (JS.startsWith (JS.lit ".js")
                ((c :: b) ++ JS.lit ".js" ++ JS.lit "on.js"))
        with (N.eqb 46 c
              && JS.startsWith (JS.lit "js")
                   (b ++ JS.lit ".js" ++ JS.lit "on.js")).
      destruct (N.eqb_spec 46 c) as [<- | _]; [|reflexivity].
      exfalso.
      assert (Hin : In 46%N (JS.lit "config"))
        by (rewrite Hpre; apply in_or_app; right; left; reflexivity).
      vm_compute in Hin. intuition discriminate.
  - vm_compute. reflexivity.
Defined.
